(** * CryptoPaymentsAPI: amount normalisation, TON transaction parsing and the
      per-user monitoring loop

    A shallow embedding of [src/CryptoPaymentsAPI.py].

    - Python values coming out of [response.json()] are a [json] tree; the
      exceptions the code can meet are the constructors of [exn], and
      fallible code lives in the [result] monad.
    - [scanAPI.convert_amount] divides two integers with Python's [/]
      (the correctly rounded binary64 quotient) and prints the quotient with
      [f"{x:.{decimals}f}"] (the correctly rounded decimal expansion of that
      binary64 value).  Both are functions on integers and are written out
      over [Z] in module [F64].
    - [CryptoPaymentsAPI.stop_events] is a [defaultdict(asyncio.Event)]: a
      finite map from user ids to flags, one shared store for every session
      and every [stop_monitoring] call.
    - [monitorTransactions] is a coroutine.  Its two suspension points (the
      fetch and the sleep) are where other coroutines may touch the shared
      registry; what they do there, and what the HTTP request answers, is the
      [world] the loop runs against.  The loop is a fuelled [Fixpoint]
      (the Python [while] need not terminate); every effect it performs is
      appended to a trace. *)

From Stdlib Require Import ZArith String Ascii List Bool Lia DecimalString.
From Stdlib Require DecimalN DecimalPos.
From stdpp Require Import gmap strings.

Local Open Scope Z_scope.

(* ===================================================================== *)
(** ** Python exceptions and results *)
(* ===================================================================== *)

Inductive exn : Type :=
| KeyError | TypeError | AttributeError | ValueError | IndexError
| OverflowError | ZeroDivisionError.

Inductive result (A : Type) : Type :=
| Ok (a : A)
| Raise (e : exn).
Arguments Ok {A} a.
Arguments Raise {A} e.

(** Sequencing: the first exception raised aborts what follows
    (notation [x ← r; k]). *)
#[global] Instance result_bind : MBind result := λ A B k r,
  match r with
  | Ok a => k a
  | Raise e => Raise e
  end.

(* ===================================================================== *)
(** ** Strings: [str.lower], [str.rstrip], decimal digits *)
(* ===================================================================== *)

(** [str.lower] on the ASCII letters.  Strings are byte strings (UTF-8); the
    only non-ASCII character whose lower case is an ASCII letter is the
    Kelvin sign (to [k]), and no key of [decimals_map] contains a [k]. *)
Definition lower_ascii (c : ascii) : ascii :=
  let n := N_of_ascii c in
  if (65 <=? n)%N && (n <=? 90)%N then ascii_of_N (n + 32) else c.

Fixpoint lower (s : string) : string :=
  match s with
  | EmptyString => EmptyString
  | String c r => String (lower_ascii c) (lower r)
  end.

(** [s.rstrip(c)] for a one-character argument. *)
Fixpoint rstrip (c : ascii) (s : string) : string :=
  match s with
  | EmptyString => EmptyString
  | String a r =>
      match rstrip c r with
      | EmptyString => if Ascii.eqb a c then EmptyString else String a EmptyString
      | r' => String a r'
      end
  end.

(** Decimal digits of a non-negative integer, as [str(n)] prints them. *)
Definition str_of_nonneg (n : Z) : string :=
  NilZero.string_of_uint (N.to_uint (Z.to_N n)).

Definition digit_char (n : Z) : ascii := ascii_of_N (48 + Z.to_N n).

(** The [w] low-order decimal digits of [n], most significant first, with
    leading zeros. *)
Fixpoint pad_digits (w : nat) (n : Z) (acc : string) : string :=
  match w with
  | O => acc
  | S w' => pad_digits w' (n / 10) (String (digit_char (n mod 10)) acc)
  end.

(* ===================================================================== *)
(** ** binary64 arithmetic used by [convert_amount] *)
(* ===================================================================== *)

Module F64.

(** A finite binary64 value [(-1)^sign * mant * 2^expo]. *)
Record t : Type := mk { sign : bool; mant : Z; expo : Z }.

(** [num / den] rounded to the nearest integer, ties to even
    ([0 <= num], [0 < den]). *)
Definition round_half_even (num den : Z) : Z :=
  let q := num / den in
  let r := num mod den in
  if 2 * r <? den then q
  else if den <? 2 * r then q + 1
  else if Z.even q then q else q + 1.

(** Exponent of the unit in the last place of the binary64 nearest to
    [a / b] ([0 < a], [0 < b]): the [e] with
    [2^52 <= a / (b * 2^e) < 2^53], not below the subnormal exponent. *)
Definition ulp_exponent (a b : Z) : Z :=
  let k := Z.log2 a - Z.log2 b in
  let ge := if 0 <=? k then b * 2 ^ k <=? a else b <=? a * 2 ^ (- k) in
  let e := if ge then k - 52 else k - 53 in
  Z.max e (-1074).

(** Python's [a / b] on integers: the correctly rounded quotient. *)
Definition true_div (a b : Z) : result t :=
  if b =? 0 then Raise ZeroDivisionError
  else if a =? 0 then Ok (mk false 0 0)
  else
    let s := xorb (a <? 0) (b <? 0) in
    let a' := Z.abs a in
    let b' := Z.abs b in
    let e := ulp_exponent a' b' in
    let m := if 0 <=? e then round_half_even a' (b' * 2 ^ e)
             else round_half_even (a' * 2 ^ (- e)) b' in
    if (971 <? e) || ((e =? 971) && (2 ^ 53 <=? m)) then Raise OverflowError
    else Ok (mk s m e).

(** [f"{x:.{prec}f}"]: the decimal expansion of the binary value rounded to
    [prec] fractional digits, ties to even. *)
Definition format_fixed (x : t) (prec : Z) : string :=
  let p := 10 ^ prec in
  let K := if 0 <=? expo x then mant x * 2 ^ expo x * p
           else round_half_even (mant x * p) (2 ^ (- expo x)) in
  let minus := if sign x then "-"%string else ""%string in
  let frac := if prec =? 0 then ""%string
              else String "." (pad_digits (Z.to_nat prec) (K mod p) "") in
  minus +:+ str_of_nonneg (K / p) +:+ frac.

End F64.

(* ===================================================================== *)
(** ** [scanAPI.convert_amount] *)
(* ===================================================================== *)

Definition decimals_map : gmap string Z :=
  <["btc" := 8]> (<["eth" := 18]> (<["bnb" := 18]> (<["sol" := 9]>
  (<["ltc" := 8]> (<["matic" := 18]> (<["ton" := 9]> (<["doge" := 8]> ∅))))))).

Definition convert_amount (amount : Z) (blockchain : string) : result string :=
  match decimals_map !! lower blockchain with
  | None => Raise ValueError
  | Some decimals =>
      if amount =? 0 then Ok "0"%string
      else
        let factor := 10 ^ decimals in
        user_friendly_amount ← F64.true_div amount factor;
        Ok (rstrip "." (rstrip "0" (F64.format_fixed user_friendly_amount decimals)))
  end.

(* ===================================================================== *)
(** ** JSON documents as Python objects *)
(* ===================================================================== *)

(** What [await response.json()] hands to the code.  An object is the Python
    dict, listed in insertion order (keys distinct).  Numbers are the
    integers: toncenter sends amounts as decimal strings and times as
    integers, and a JSON number with a fraction or an exponent (a Python
    float) is outside this model. *)
#[warnings="-register-all"] Inductive json : Type :=
| JNull
| JBool (b : bool)
| JInt (n : Z)
| JStr (s : string)
| JArr (items : list json)
| JObj (fields : list (string * json)).

Fixpoint assoc {V : Type} (k : string) (fields : list (string * V)) : option V :=
  match fields with
  | [] => None
  | (k', v) :: rest => if String.eqb k k' then Some v else assoc k rest
  end.

(** Truth value of an object in a condition. *)
Definition truthy (v : json) : bool :=
  match v with
  | JNull => false
  | JBool b => b
  | JInt n => negb (n =? 0)
  | JStr s => negb (String.eqb s "")
  | JArr items => match items with [] => false | _ => true end
  | JObj fields => match fields with [] => false | _ => true end
  end.

(** [v[k]] with a string key: only a dict can be subscripted by a string. *)
Definition getitem (v : json) (k : string) : result json :=
  match v with
  | JObj fields =>
      match assoc k fields with
      | Some x => Ok x
      | None => Raise KeyError
      end
  | _ => Raise TypeError
  end.

(** [v.get(k, default)]: only a dict has the method. *)
Definition get (v : json) (k : string) (default : json) : result json :=
  match v with
  | JObj fields =>
      match assoc k fields with
      | Some x => Ok x
      | None => Ok default
      end
  | _ => Raise AttributeError
  end.

(** The characters of a [str], each one as a string: in UTF-8 a character
    is a byte that is not a continuation byte, with the continuation bytes
    that follow it. *)
Definition byte_value (c : ascii) : Z := Z.of_N (N_of_ascii c).

Definition is_continuation (c : ascii) : bool :=
  (128 <=? byte_value c) && (byte_value c <? 192).

Fixpoint characters (s : string) : list string :=
  match s with
  | EmptyString => []
  | String b rest =>
      match characters rest with
      | String c tail :: others =>
          if is_continuation c then String b (String c tail) :: others
          else String b EmptyString :: String c tail :: others
      | _ => [String b EmptyString]
      end
  end.

(** Sequence indexing [l[i]], negative indices counting from the end. *)
Definition index {A : Type} (l : list A) (i : Z) : result A :=
  let n := Z.of_nat (length l) in
  let j := if i <? 0 then i + n else i in
  if (j <? 0) || (n <=? j) then Raise IndexError
  else match nth_error l (Z.to_nat j) with
       | Some x => Ok x
       | None => Raise IndexError
       end.

(** [v[key]] with an arbitrary key. *)
Definition subscript (v key : json) : result json :=
  match v, key with
  | JObj _, JStr k => getitem v k
  | JObj _, (JArr _ | JObj _) => Raise TypeError
  | JObj _, _ => Raise KeyError
  | JArr items, JInt i => index items i
  | JArr items, JBool b => index items (if b then 1 else 0)
  | JStr s, JInt i => c ← index (characters s) i; Ok (JStr c)
  | JStr s, JBool b => c ← index (characters s) (if b then 1 else 0); Ok (JStr c)
  | _, _ => Raise TypeError
  end.

(** The elements a [for] loop draws from an object. *)
Definition iter (v : json) : result (list json) :=
  match v with
  | JObj fields => Ok (map (λ kv, JStr kv.1) fields)
  | JArr items => Ok items
  | JStr s => Ok (map JStr (characters s))
  | _ => Raise TypeError
  end.

(** *** [int(x)] *)

(** A [str] is held as its UTF-8 bytes, and [int] reads its characters.
    Bytes that are not UTF-8 are no [str]. *)
Definition continuation (c : ascii) : option Z :=
  if is_continuation c then Some (byte_value c - 128) else None.

Fixpoint code_points (bs : list ascii) : option (list Z) :=
  match bs with
  | [] => Some []
  | b0 :: rest =>
      let v0 := byte_value b0 in
      if v0 <? 128 then
        match code_points rest with
        | Some cps => Some (v0 :: cps)
        | None => None
        end
      else if (192 <=? v0) && (v0 <? 224) then
        match rest with
        | b1 :: rest' =>
            match continuation b1, code_points rest' with
            | Some c1, Some cps => Some ((v0 - 192) * 64 + c1 :: cps)
            | _, _ => None
            end
        | _ => None
        end
      else if (224 <=? v0) && (v0 <? 240) then
        match rest with
        | b1 :: b2 :: rest' =>
            match continuation b1, continuation b2, code_points rest' with
            | Some c1, Some c2, Some cps =>
                Some (((v0 - 224) * 64 + c1) * 64 + c2 :: cps)
            | _, _, _ => None
            end
        | _ => None
        end
      else if (240 <=? v0) && (v0 <? 248) then
        match rest with
        | b1 :: b2 :: b3 :: rest' =>
            match continuation b1, continuation b2, continuation b3,
                  code_points rest' with
            | Some c1, Some c2, Some c3, Some cps =>
                Some ((((v0 - 240) * 64 + c1) * 64 + c2) * 64 + c3 :: cps)
            | _, _, _, _ => None
            end
        | _ => None
        end
      else None
  end.

Definition char_of (cp : Z) : ascii := ascii_of_N (Z.to_N cp).

(** White space from U+007F on ([str.isspace]). *)
Definition is_unicode_space (cp : Z) : bool :=
  (cp =? 133) || (cp =? 160) || (cp =? 5760)
  || ((8192 <=? cp) && (cp <=? 8202))
  || (cp =? 8232) || (cp =? 8233) || (cp =? 8239) || (cp =? 8287)
  || (cp =? 12288).

(** The digit zero of every script with decimal digits outside ASCII; its
    nine successors are the digits 1 to 9 (Unicode 14.0, the table of
    CPython 3.11). *)
Definition decimal_zeros : list Z :=
  [1632; 1776; 1984; 2406; 2534; 2662; 2790; 2918; 3046; 3174; 3302; 3430;
   3558; 3664; 3792; 3872; 4160; 4240; 6112; 6160; 6470; 6608; 6784; 6800;
   6992; 7088; 7232; 7248; 42528; 43216; 43264; 43472; 43504; 43600; 44016;
   65296; 66720; 68912; 69734; 69872; 69942; 70096; 70384; 70736; 70864;
   71248; 71360; 71472; 71904; 72016; 72784; 73040; 73120; 92768; 92864;
   93008; 120782; 120792; 120802; 120812; 120822; 123200; 123632; 125264;
   130032].

Definition to_decimal (cp : Z) : option Z :=
  match List.find (λ z, (z <=? cp) && (cp <? z + 10)) decimal_zeros with
  | Some z => Some (cp - z)
  | None => None
  end.

(** What [int] does to a [str] before it parses it: a string all in ASCII
    is left as it is; in another one white space becomes a blank, a decimal
    digit its ASCII digit, and the string is cut with a ['?'] at the first
    other character from U+007F on. *)
Fixpoint to_ascii (cps : list Z) : list ascii :=
  match cps with
  | [] => []
  | cp :: rest =>
      if cp <? 127 then char_of cp :: to_ascii rest
      else if is_unicode_space cp then " "%char :: to_ascii rest
      else match to_decimal cp with
           | Some d => char_of (48 + d) :: to_ascii rest
           | None => ["?"%char]
           end
  end.

Definition transform (cps : list Z) : list ascii :=
  if forallb (λ cp, cp <? 128) cps then map char_of cps else to_ascii cps.

(** The white space the parser skips: tab, LF, VT, FF, CR and the blank. *)
Definition is_space (c : ascii) : bool :=
  let n := N_of_ascii c in
  ((9 <=? n) && (n <=? 13) || (n =? 32))%N.

Definition is_digit (c : ascii) : bool :=
  let n := N_of_ascii c in ((48 <=? n) && (n <=? 57))%N.

Definition digit_value (c : ascii) : Z := Z.of_N (N_of_ascii c) - 48.

(** Digits with single underscores between them; [prev] tells whether the
    previous character was a digit. *)
Fixpoint digits_value (cs : list ascii) (prev : bool) (acc : Z) : option Z :=
  match cs with
  | [] => if prev then Some acc else None
  | c :: rest =>
      if is_digit c then digits_value rest true (10 * acc + digit_value c)
      else if Ascii.eqb c "_" && prev then digits_value rest false acc
      else None
  end.

Fixpoint lstrip_space (cs : list ascii) : list ascii :=
  match cs with
  | c :: rest => if is_space c then lstrip_space rest else cs
  | [] => []
  end.

Definition strip_space (cs : list ascii) : list ascii :=
  lstrip_space (rev (lstrip_space (rev cs))).

(** [sys.get_int_max_str_digits()], at its default. *)
Definition max_str_digits : nat := 4300.

(** [int(s)] for a string: surrounding white space, an optional sign, decimal
    digits, no more than [max_str_digits] of them. *)
Definition int_of_string (s : string) : option Z :=
  match code_points (list_ascii_of_string s) with
  | None => None
  | Some cps =>
      let text := strip_space (transform cps) in
      if (max_str_digits <? length (List.filter is_digit text))%nat then None
      else
        match text with
        | c :: rest =>
            if Ascii.eqb c "-" then Z.opp <$> digits_value rest false 0
            else if Ascii.eqb c "+" then digits_value rest false 0
            else digits_value (c :: rest) false 0
        | [] => None
        end
  end.

Definition py_int (v : json) : result Z :=
  match v with
  | JInt n => Ok n
  | JBool b => Ok (if b then 1 else 0)
  | JStr s =>
      match int_of_string s with
      | Some n => Ok n
      | None => Raise ValueError
      end
  | _ => Raise TypeError
  end.

(** *** The [addresses] dict built from the address book *)

(** Keys are hashable objects; [True == 1] and [False == 0] as keys. *)
Definition key_eqb (a b : json) : bool :=
  match a, b with
  | JNull, JNull => true
  | JStr s, JStr s' => String.eqb s s'
  | JInt n, JInt n' => n =? n'
  | JBool x, JBool y => Bool.eqb x y
  | JBool x, JInt n | JInt n, JBool x => n =? (if x then 1 else 0)
  | _, _ => false
  end.

Definition hashable (k : json) : bool :=
  match k with
  | JArr _ | JObj _ => false
  | _ => true
  end.

Fixpoint dict_find (k : json) (d : list (json * json)) : option json :=
  match d with
  | [] => None
  | (k', v) :: rest => if key_eqb k k' then Some v else dict_find k rest
  end.

(** [d[k] = v] *)
Fixpoint dict_set (k v : json) (d : list (json * json)) : list (json * json) :=
  match d with
  | [] => [(k, v)]
  | (k', v') :: rest =>
      if key_eqb k k' then (k', v) :: rest else (k', v') :: dict_set k v rest
  end.

(** [d.get(k, default)] *)
Definition dict_get (d : list (json * json)) (k default : json) : result json :=
  if hashable k then
    match dict_find k d with
    | Some v => Ok v
    | None => Ok default
    end
  else Raise TypeError.

(* ===================================================================== *)
(** ** [scanAPI.getTonLastTransactions] *)
(* ===================================================================== *)

(** One entry of the list the function returns (a dict with six fixed
    keys). *)
Module Trx.
Record t : Type := mk {
  address : json;
  hash : json;
  time : json;
  success : json;
  amount : string;
  memo : json
}.
End Trx.

(** What the logger receives. *)
Inductive log_entry : Type :=
| Warning (e : exn)          (* "KeyError while processing transaction" *)
| HttpError (status : Z)     (* "HTTP error occurred" *)
| ClientErrorLog             (* "Aiohttp client error occurred" *)
| FetchError.                (* "An error occurred while fetching transactions" *)

(** How the request [session.get ... raise_for_status ... json()] ends. *)
Inductive response : Type :=
| ClientResponseError (status : Z)   (* bad HTTP status, wrong content type *)
| ClientError                        (* connection level failure *)
| OtherException                     (* anything else, e.g. a body that is not JSON *)
| Body (data : json).

(** The loop over [data.get('address_book', {})]. *)
Fixpoint fill_addresses (data : json) (keys : list json)
    (addresses : list (json * json)) : result (list (json * json)) :=
  match keys with
  | [] => Ok addresses
  | usrf :: rest =>
      book ← getitem data "address_book";
      entry ← subscript book usrf;
      name ← get entry "user_friendly" (JStr "Unknown");
      fill_addresses data rest (dict_set usrf name addresses)
  end.

(** The condition and assignment that compute [memo] for one transaction. *)
Definition read_memo (trx : json) : result json :=
  in_msg ← getitem trx "in_msg";
  content ← getitem in_msg "message_content";
  decoded ← get content "decoded" JNull;
  if truthy decoded then
    in_msg ← getitem trx "in_msg";
    content ← getitem in_msg "message_content";
    decoded ← getitem content "decoded";
    comment ← get decoded "comment" JNull;
    if truthy comment then
      in_msg ← getitem trx "in_msg";
      content ← getitem in_msg "message_content";
      decoded ← getitem content "decoded";
      getitem decoded "comment"
    else Ok JNull
  else Ok JNull.

(** The dict display inside the inner [try], fields evaluated in order. *)
Definition build_entry (addresses : list (json * json)) (trx memo : json)
    : result Trx.t :=
  in_msg ← getitem trx "in_msg";
  source ← get in_msg "source" JNull;
  address ← dict_get addresses source (JStr "Unknown address");
  hash ← getitem trx "hash";
  time ← getitem trx "now";
  description ← getitem trx "description";
  compute_ph ← getitem description "compute_ph";
  success ← get compute_ph "success" (JBool false);
  in_msg ← getitem trx "in_msg";
  value ← get in_msg "value" JNull;
  raw ← py_int value;
  amount ← convert_amount raw "ton";
  Ok (Trx.mk address hash time success amount memo).

(** The loop over [data.get('transactions', [])].  A [KeyError] raised inside
    the inner [try] is logged and the loop goes on; any other exception, and
    any exception raised while reading the memo, leaves the loop.  The log is
    returned in both cases. *)
Fixpoint collect (addresses : list (json * json)) (trxs : list json)
    (info : list Trx.t) (log : list log_entry)
    : list log_entry * result (list Trx.t) :=
  match trxs with
  | [] => (log, Ok info)
  | trx :: rest =>
      match read_memo trx with
      | Raise e => (log, Raise e)
      | Ok memo =>
          match build_entry addresses trx memo with
          | Ok entry => collect addresses rest (info ++ [entry]) log
          | Raise KeyError => collect addresses rest info (log ++ [Warning KeyError])
          | Raise e => (log, Raise e)
          end
      end
  end.

(** Everything between [data = await response.json()] and [return info]. *)
Definition parse_page (data : json) : list log_entry * result (list Trx.t) :=
  let prepared :=
    book ← get data "address_book" (JObj []);
    keys ← iter book;
    addresses ← fill_addresses data keys [];
    page ← get data "transactions" (JArr []);
    trxs ← iter page;
    Ok (addresses, trxs) in
  match prepared with
  | Raise e => ([], Raise e)
  | Ok (addresses, trxs) => collect addresses trxs [] []
  end.

(** The function itself, given how the request ended: the returned list and
    what was logged.  Every exception is caught by one of the three outer
    handlers, after which the function returns [[]]. *)
Definition getTonLastTransactions (r : response) : list Trx.t * list log_entry :=
  match r with
  | ClientResponseError status => ([], [HttpError status])
  | ClientError => ([], [ClientErrorLog])
  | OtherException => ([], [FetchError])
  | Body data =>
      match parse_page data with
      | (log, Ok info) => (info, log)
      | (log, Raise _) => ([], log ++ [FetchError])
      end
  end.

(* ===================================================================== *)
(** ** [CryptoPaymentsAPI]: the stop-event registry and the polling loop *)
(* ===================================================================== *)

(** [self.stop_events]: user id to the flag of that user's [asyncio.Event].
    A missing key is an event that was never created. *)
Abbreviation registry := (gmap string bool).

(** [self.stop_events[user_id]] on a [defaultdict]: the entry is created,
    unset, when it is missing. *)
Definition signal_for (user_id : string) (reg : registry) : bool * registry :=
  match reg !! user_id with
  | Some flag => (flag, reg)
  | None => (false, <[user_id := false]> reg)
  end.

(** [self.stop_events[user_id].set()] *)
Definition stop_monitoring (user_id : string) (reg : registry) : registry :=
  <[user_id := true]> (signal_for user_id reg).2.

(** [self.stop_events[user_id].clear()] *)
Definition clear_signal (user_id : string) (reg : registry) : registry :=
  <[user_id := false]> (signal_for user_id reg).2.

(** [self.stop_events[user_id].is_set()] *)
Definition is_set (user_id : string) (reg : registry) : bool * registry :=
  signal_for user_id reg.

(** What another coroutine may do to the registry while this one is
    suspended: call [stop_monitoring], or start a session (whose first
    statement clears that user's event). *)
Inductive intrusion : Type :=
| Stops (user_id : string)
| Starts (user_id : string).

Definition intrude (a : intrusion) (reg : registry) : registry :=
  match a with
  | Stops u => stop_monitoring u reg
  | Starts u => clear_signal u reg
  end.

Definition intrusions (l : list intrusion) (reg : registry) : registry :=
  foldl (λ r a, intrude a r) reg l.

(** One poll cycle as seen from outside: how the request ends, and what the
    other coroutines do during the fetch and during the sleep. *)
Record cycle : Type := mk_cycle {
  answer : response;
  while_fetching : list intrusion;
  while_sleeping : list intrusion
}.

(** The environment of a session: the [k]-th cycle it will meet. *)
Definition world : Type := nat → cycle.

(** Effects of the session, in order. *)
Inductive event : Type :=
| Fetch (address : string)
| Sleep (seconds : Z).

Inductive outcome : Type :=
| Returned (b : bool)
| Raised (e : exn).

Record final : Type := mk_final {
  result_of : outcome;
  registry_of : registry;
  trace_of : list event
}.

(** The condition of the [if] inside [for trx in transactions]. *)
Definition matches (trx : Trx.t) (amount : string) (memo : option string) : bool :=
  String.eqb (Trx.amount trx) amount &&
  match memo with
  | None => true
  | Some m =>
      match Trx.memo trx with
      | JStr s => String.eqb s m
      | _ => false
      end
  end.

(** The session between two passes through the top of the [while]: which
    cycle comes next, the counter [i], the shared registry and the effects
    so far. *)
Record loop_state : Type := mk_state {
  cycle_no : nat;
  i : Z;
  stop_events : registry;
  trace : list event
}.

Section Session.

(** The arguments of one [monitorTransactions] call. *)
Variables (user_id blockchain address amount : string).
Variable timeInterval : Z.
Variable memo : option string.
Variable checkTime : Z.
Variable w : world.

(** One pass from the top of the [while]: the loop test and the body.
    Left: the call is over.  Right: back at the top of the loop. *)
Definition body (s : loop_state) : final + loop_state :=
  if i s <=? timeInterval then
    let (stopped, reg) := is_set user_id (stop_events s) in
    if stopped then inl (mk_final (Returned false) reg (trace s))
    else if String.eqb blockchain "ton" then
      let reg := intrusions (while_fetching (w (cycle_no s))) reg in
      let transactions := (getTonLastTransactions (answer (w (cycle_no s)))).1 in
      let trace := trace s ++ [Fetch address] in
      if existsb (λ trx, matches trx amount memo) transactions
      then inl (mk_final (Returned true) reg trace)
      else
        let reg := intrusions (while_sleeping (w (cycle_no s))) reg in
        let trace := trace ++ [Sleep checkTime] in
        inr (mk_state (S (cycle_no s)) (i s + checkTime) reg trace)
    else inl (mk_final (Raised ValueError) reg (trace s))
  else inl (mk_final (Returned false) (stop_events s) (trace s)).

(** The [while] loop.  [None]: the fuel ran out before the loop ended. *)
Fixpoint poll (fuel : nat) (s : loop_state) : option final :=
  match fuel with
  | O => None
  | S fuel' =>
      match body s with
      | inl fin => Some fin
      | inr s' => poll fuel' s'
      end
  end.

(** The state at the top of the loop after [n] more passes, if the call is
    not over before. *)
Fixpoint boundary (n : nat) (s : loop_state) : option loop_state :=
  match n with
  | O => Some s
  | S n' =>
      match body s with
      | inl _ => None
      | inr s' => boundary n' s'
      end
  end.

(** The whole call: clear the user's event, then loop from [i = 0].  The
    two [except] clauses print and re-raise. *)
Definition start (reg : registry) : loop_state :=
  mk_state 0 0 (clear_signal user_id reg) [].

Definition monitorTransactions (fuel : nat) (reg : registry) : option final :=
  poll fuel (start reg).

End Session.

(** Poll cycles a session went through: its fetches. *)
Definition is_fetch (ev : event) : bool :=
  match ev with
  | Fetch _ => true
  | Sleep _ => false
  end.

Definition fetches (trace : list event) : nat :=
  length (List.filter is_fetch trace).

Definition is_sleep (ev : event) : bool := negb (is_fetch ev).

Definition sleeps (trace : list event) : nat :=
  length (List.filter is_sleep trace).

(* ===================================================================== *)
(** ** Vocabulary of the specification *)
(* ===================================================================== *)

(** The amount normaliser as the specification words it: [n / 10^decimals]
    written with exactly [decimals] fractional digits ... *)
Definition fixed_point (n decimals : Z) : string :=
  str_of_nonneg (n / 10 ^ decimals) +:+
  (String "." (pad_digits (Z.to_nat decimals) (n mod 10 ^ decimals) "")).

(** ... then trailing zero digits stripped, then a trailing decimal point
    stripped. *)
Definition shortest_decimal (n decimals : Z) : string :=
  rstrip "." (rstrip "0" (fixed_point n decimals)).

(** The user an intrusion is about. *)
Definition targets (a : intrusion) : string :=
  match a with
  | Stops u => u
  | Starts u => u
  end.

(** The page cycle [c] hands to the loop. *)
Definition page (c : cycle) : list Trx.t := (getTonLastTransactions (answer c)).1.

Definition cycle_matches (amount : string) (memo : option string) (c : cycle) : bool :=
  existsb (λ trx, matches trx amount memo) (page c).

(** The memo criterion of a session. *)
Definition memo_ok (memo : option string) (trx : Trx.t) : Prop :=
  memo = None ∨ ∃ m, memo = Some m ∧ Trx.memo trx = JStr m.

(** Nobody calls [stop_monitoring user_id] while the session runs. *)
Definition never_cancelled (user_id : string) (w : world) : Prop :=
  ∀ k, (Stops user_id ∉ while_fetching (w k)) ∧ (Stops user_id ∉ while_sleeping (w k)).

(** The request failed, or its body could not be processed. *)
Definition fetch_failed (r : response) : bool :=
  match r with
  | Body data =>
      match (parse_page data).2 with
      | Ok _ => false
      | Raise _ => true
      end
  | _ => true
  end.

(** The world in which every failed fetch is replaced by a successful fetch
    of a page without transactions. *)
Definition absorbed (w : world) : world := λ k,
  if fetch_failed (answer (w k))
  then mk_cycle (Body (JObj [])) (while_fetching (w k)) (while_sleeping (w k))
  else w k.



(** The state the loop is in after a pass that found nothing: the entry of
    [user_id] exists, the others had the fetch and the sleep to intrude. *)
Definition next_state (user_id address : string) (checkTime : Z) (w : world)
    (s : loop_state) : loop_state :=
  mk_state (S (cycle_no s)) (i s + checkTime)
    (intrusions (while_sleeping (w (cycle_no s)))
       (intrusions (while_fetching (w (cycle_no s)))
          (signal_for user_id (stop_events s)).2))
    (trace s ++ [Fetch address; Sleep checkTime]).

(** What a list of intrusions does to the entry of user [b]. *)
Definition flag_after (b : string) (l : list intrusion) (flag : option bool)
    : option bool :=
  foldl (λ o a, match a with
                | Stops u => if decide (u = b) then Some true else o
                | Starts u => if decide (u = b) then Some false else o
                end) flag l.



(* ===================================================================== *)
(** ** Sample data *)
(* ===================================================================== *)

Module Sample.

(** A transaction as toncenter sends it: 10 TON with the comment [x]. *)
Definition in_msg : json :=
  JObj [("source", JStr "0:abc"); ("value", JStr "10000000000");
        ("message_content", JObj [("decoded", JObj [("comment", JStr "x")])])].

Definition description : json :=
  JObj [("compute_ph", JObj [("success", JBool true)])].

Definition good : json :=
  JObj [("hash", JStr "h1"); ("now", JInt 1700000000);
        ("description", description); ("in_msg", in_msg)].

(** The same record without its [hash] ... *)
Definition no_hash : json :=
  JObj [("now", JInt 1700000000); ("description", description); ("in_msg", in_msg)].

(** ... one without its [in_msg] ... *)
Definition no_in_msg : json :=
  JObj [("hash", JStr "h2"); ("now", JInt 1700000001); ("description", description)].

(** ... and one whose [in_msg] has no [value]. *)
Definition no_value : json :=
  JObj [("hash", JStr "h3"); ("now", JInt 1700000002); ("description", description);
        ("in_msg", JObj [("source", JStr "0:abc");
                         ("message_content", JObj [("decoded", JNull)])])].

Definition page_of (trxs : list json) : json :=
  JObj [("transactions", JArr trxs);
        ("address_book", JObj [("0:abc", JObj [("user_friendly", JStr "EQabc")])])].

Definition parsed_good : Trx.t :=
  Trx.mk (JStr "EQabc") (JStr "h1") (JInt 1700000000) (JBool true) "10" (JStr "x").

Definition quiet (r : response) : cycle := mk_cycle r [] [].

(** Two empty pages, then the payment. *)
Definition third_poll : world := λ k,
  quiet (if (k <? 2)%nat then Body (page_of []) else Body (page_of [good])).

(** Empty pages for ever. *)
Definition silence : world := λ _, quiet (Body (page_of [])).

(** Every request fails. *)
Definition outage : world := λ _, quiet ClientError.

(** The payment is in the first page, and [stop_monitoring "user123"] is
    called while that page is being fetched. *)
Definition stop_while_paid : world := λ _,
  mk_cycle (Body (page_of [good])) [Stops "user123"] [].

(** Empty pages; [stop_monitoring "user123"] is called during the first
    sleep. *)
Definition stop_in_first_sleep : world := λ k,
  mk_cycle (Body (page_of [])) [] (if (k =? 0)%nat then [Stops "user123"] else []).

End Sample.

(* ===================================================================== *)
(** ** Vocabulary for the further properties *)
(* ===================================================================== *)

(** [n] full cycles as the session's trace shows them. *)
Definition cycles (n : nat) (address : string) (checkTime : Z) : list event :=
  concat (replicate n [Fetch address; Sleep checkTime]).

(** Seconds asked of [asyncio.sleep] in a trace. *)
Definition slept (trace : list event) : Z :=
  foldr (λ ev acc, match ev with
                   | Sleep seconds => seconds + acc
                   | Fetch _ => acc
                   end) 0 trace.

(** What the end of a call adds to the trace after its last full cycle. *)
Definition last_effects (address : string) (r : outcome) : list event :=
  match r with
  | Returned true => [Fetch address]
  | _ => []
  end.

(** No other coroutine writes the entry of user [v] while the session runs. *)
Definition left_alone (v : string) (w : world) : Prop :=
  ∀ k a, a ∈ while_fetching (w k) ++ while_sleeping (w k) → targets a ≠ v.
(** More sample data. *)
Module Scenario.

(** Empty pages; during the first sleep somebody stops ["user123"] and then
    a second session for ["user123"] starts. *)
Definition stop_then_restart : world := λ k,
  mk_cycle (Body (Sample.page_of []))
    [] (if (k =? 0)%nat then [Stops "user123"; Starts "user123"] else []).

(** The same stop and restart during the first sleep, after an empty page;
    the payment is in every later page. *)
Definition restart_then_paid : world := λ k,
  mk_cycle (Body (Sample.page_of (if (k =? 0)%nat then [] else [Sample.good])))
    [] (if (k =? 0)%nat then [Stops "user123"; Starts "user123"] else []).


End Scenario.

(** Whether a string holds a decimal point. *)
Fixpoint has_point (s : string) : bool :=
  match s with
  | EmptyString => false
  | String c r => Ascii.eqb c "." || has_point r
  end.

(** The number of units of [10^-prec] that [f"{x:.{prec}f}"] shows for the
    magnitude of [x]. *)
Definition printed_units (x : F64.t) (prec : Z) : Z :=
  if 0 <=? F64.expo x then F64.mant x * 2 ^ F64.expo x * 10 ^ prec
  else F64.round_half_even (F64.mant x * 10 ^ prec) (2 ^ (- F64.expo x)).

(** The part of [getTonLastTransactions] before the loop over the
    transactions: the [addresses] dict and the list the loop goes through. *)
Definition prepare (data : json) : result (list (json * json) * list json) :=
  book ← get data "address_book" (JObj []);
  keys ← iter book;
  addresses ← fill_addresses data keys [];
  page ← get data "transactions" (JArr []);
  trxs ← iter page;
  Ok (addresses, trxs).

(** What one pass of that loop does with a record: append its entry, log a
    [KeyError] and go on, or leave the function through the outer handler. *)
Inductive fate : Type :=
| Parsed (entry : Trx.t)
| Skipped
| Fatal (e : exn).

Definition fate_of (addresses : list (json * json)) (trx : json) : fate :=
  match read_memo trx with
  | Raise e => Fatal e
  | Ok memo =>
      match build_entry addresses trx memo with
      | Ok entry => Parsed entry
      | Raise KeyError => Skipped
      | Raise e => Fatal e
      end
  end.

Definition is_fatal (f : fate) : bool :=
  match f with
  | Fatal _ => true
  | _ => false
  end.

Definition parsed_of (addresses : list (json * json)) (trxs : list json)
    : list Trx.t :=
  omap (λ trx, match fate_of addresses trx with
               | Parsed entry => Some entry
               | _ => None
               end) trxs.

Definition skipped_of (addresses : list (json * json)) (trxs : list json) : nat :=
  length (List.filter (λ trx, match fate_of addresses trx with
                              | Skipped => true
                              | _ => false
                              end) trxs).

(** Every key of the [addresses] dict is a string. *)
Definition str_keys (d : list (json * json)) : Prop :=
  Forall (λ kv, ∃ s, kv.1 = JStr s) d.

(* ===================================================================== *)
(** * Properties *)
(* ===================================================================== *)

(** ** Rounding to the nearest integer *)

Lemma round_half_even_near (num den q : Z) :
  0 < den → 2 * Z.abs (q * den - num) < den → F64.round_half_even num den = q.
Proof.
  intros Hden Hnear. unfold F64.round_half_even.
  pose proof (Z.div_mod num den ltac:(lia)) as Hdm.
  pose proof (Z.mod_pos_bound num den Hden) as Hr.
  set (q0 := num / den) in *. set (r := num mod den) in *.
  assert (q0 = q ∨ q0 = q - 1) as [-> | ->] by nia.
  - assert (2 * r < den) by nia.
    destruct (Z.ltb_spec (2 * r) den); lia.
  - assert (den < 2 * r) by nia.
    destruct (Z.ltb_spec (2 * r) den); [lia |].
    destruct (Z.ltb_spec den (2 * r)); lia.
Qed.

Lemma round_half_even_err (num den : Z) :
  0 < den → 2 * Z.abs (F64.round_half_even num den * den - num) ≤ den.
Proof.
  intros Hden. unfold F64.round_half_even.
  pose proof (Z.div_mod num den ltac:(lia)) as Hdm.
  pose proof (Z.mod_pos_bound num den Hden) as Hr.
  set (q0 := num / den) in *. set (r := num mod den) in *.
  destruct (Z.ltb_spec (2 * r) den); [nia |].
  destruct (Z.ltb_spec den (2 * r)); [nia |].
  destruct (Z.even q0); nia.
Qed.

(** Below [2^52] the unit in the last place of the quotient is finer than
    one part in [b]. *)
Lemma ulp_exponent_small (a b : Z) :
  0 < a < 2 ^ 52 → 0 < b < 2 ^ 1074 →
  F64.ulp_exponent a b < 0 ∧ b < 2 ^ (- F64.ulp_exponent a b).
Proof.
  intros [Ha Ha'] [Hb Hb']. unfold F64.ulp_exponent.
  assert (Z.log2 a < 52) as Hla by (apply Z.log2_lt_pow2; lia).
  pose proof (Z.log2_nonneg b) as Hlb.
  pose proof (Z.log2_spec b Hb) as [_ Hspec].
  set (k := Z.log2 a - Z.log2 b) in *.
  set (e1 := if (if 0 <=? k then b * 2 ^ k <=? a else b <=? a * 2 ^ (- k))
             then k - 52 else k - 53).
  assert (e1 ≤ k - 52) as He1 by (subst e1; destruct (if 0 <=? k then _ else _); lia).
  destruct (Z.max_spec e1 (-1074)) as [[_ ->] | [_ ->]].
  - split; [lia |]. exact Hb'.
  - split; [lia |].
    eapply Z.lt_le_trans; [exact Hspec |].
    apply Z.pow_le_mono_r; lia.
Qed.

(** Dividing by [10^d] and printing [d] digits gives the dividend back. *)
Lemma true_div_small (a d : Z) :
  0 < a < 2 ^ 52 → 0 < d ≤ 18 →
  ∃ m e, F64.true_div a (10 ^ d) = Ok (F64.mk false m e) ∧ e < 0 ∧
         F64.round_half_even (m * 10 ^ d) (2 ^ (- e)) = a.
Proof.
  intros Ha Hd.
  assert (0 < 10 ^ d) as Hb by (apply Z.pow_pos_nonneg; lia).
  assert (10 ^ d < 2 ^ 1074) as Hb'.
  { eapply Z.le_lt_trans; [apply (Z.pow_le_mono_r 10 d 18); lia |]. reflexivity. }
  destruct (ulp_exponent_small a (10 ^ d) Ha (conj Hb Hb')) as [He Hlt].
  unfold F64.true_div.
  destruct (Z.eqb_spec (10 ^ d) 0); [lia |].
  destruct (Z.eqb_spec a 0); [lia |].
  rewrite (Z.abs_eq a), (Z.abs_eq (10 ^ d)) by lia.
  set (e := F64.ulp_exponent a (10 ^ d)) in *.
  destruct (Z.leb_spec 0 e); [lia |].
  destruct (Z.ltb_spec 971 e); [lia |].
  destruct (Z.eqb_spec e 971); [lia |].
  destruct (Z.ltb_spec a 0); [lia |].
  destruct (Z.ltb_spec (10 ^ d) 0); [lia |].
  cbn [orb andb xorb].
  eexists _, e. split; [reflexivity |]. split; [lia |].
  set (m := F64.round_half_even (a * 2 ^ (- e)) (10 ^ d)).
  pose proof (round_half_even_err (a * 2 ^ (- e)) (10 ^ d) Hb) as Herr.
  fold m in Herr.
  apply round_half_even_near; [lia |].
  replace (a * 2 ^ (- e) - m * 10 ^ d) with (- (m * 10 ^ d - a * 2 ^ (- e))) by lia.
  rewrite Z.abs_opp. lia.
Qed.

Lemma decimals_map_cases (k : string) (d : Z) :
  decimals_map !! k = Some d → d = 8 ∨ d = 9 ∨ d = 18.
Proof.
  unfold decimals_map. intros H.
  repeat (rewrite lookup_insert in H; case_decide; [injection H as <-; lia |]).
  by rewrite lookup_empty in H.
Qed.

Lemma convert_amount_below_2_52 (amount : Z) (blockchain : string) (decimals : Z) :
  decimals_map !! lower blockchain = Some decimals →
  0 ≤ amount < 2 ^ 52 →
  convert_amount amount blockchain =
    Ok (if amount =? 0 then "0"%string else shortest_decimal amount decimals).
Proof.
  intros Hmap Hrange. unfold convert_amount. rewrite Hmap.
  destruct (Z.eqb_spec amount 0) as [| Hnz]; [done |].
  assert (0 < decimals ≤ 18) as Hd
    by (destruct (decimals_map_cases _ _ Hmap) as [-> | [-> | ->]]; lia).
  destruct (true_div_small amount decimals ltac:(lia) Hd) as (m & e & -> & He & HK).
  cbn [mbind result_bind]. f_equal.
  unfold shortest_decimal, fixed_point, F64.format_fixed.
  cbn [F64.sign F64.mant F64.expo].
  destruct (Z.leb_spec 0 e); [lia |].
  destruct (Z.eqb_spec decimals 0); [lia |].
  rewrite HK. reflexivity.
Qed.

(** ** The registry *)

Lemma signal_for_flag (u : string) (reg : registry) :
  (signal_for u reg).2 !! u = Some (signal_for u reg).1.
Proof.
  unfold signal_for. destruct (reg !! u) eqn:E; cbn; [done |].
  by rewrite lookup_insert_eq.
Qed.

Lemma signal_for_present (u : string) (reg : registry) (flag : bool) :
  reg !! u = Some flag → signal_for u reg = (flag, reg).
Proof. intros H. unfold signal_for. by rewrite H. Qed.

Lemma stop_monitoring_insert (u : string) (reg : registry) :
  stop_monitoring u reg = <[u := true]> reg.
Proof.
  unfold stop_monitoring, signal_for. destruct (reg !! u); cbn; [done |].
  by rewrite insert_insert_eq.
Qed.

Lemma clear_signal_insert (u : string) (reg : registry) :
  clear_signal u reg = <[u := false]> reg.
Proof.
  unfold clear_signal, signal_for. destruct (reg !! u); cbn; [done |].
  by rewrite insert_insert_eq.
Qed.

Lemma intrude_other (a : intrusion) (v : string) (reg : registry) :
  targets a ≠ v → intrude a reg !! v = reg !! v.
Proof.
  intros Hne. destruct a; cbn in *;
    rewrite ?stop_monitoring_insert, ?clear_signal_insert;
    by rewrite lookup_insert_ne.
Qed.

Lemma intrude_keeps_unset (a : intrusion) (u : string) (reg : registry) :
  a ≠ Stops u → reg !! u = Some false → intrude a reg !! u = Some false.
Proof.
  intros Hne Hu. destruct (decide (targets a = u)) as [<- | Hother].
  - destruct a; [done |]. cbn. rewrite clear_signal_insert.
    by rewrite lookup_insert_eq.
  - by rewrite intrude_other.
Qed.

Lemma intrusions_keep_unset (l : list intrusion) (u : string) (reg : registry) :
  Stops u ∉ l → reg !! u = Some false → intrusions l reg !! u = Some false.
Proof.
  revert reg. induction l as [| a l IH]; intros reg Hl Hu; [done |].
  cbn. apply IH.
  - intros ?. apply Hl. by right.
  - apply intrude_keeps_unset; [| done]. intros ->. apply Hl. by left.
Qed.

(** ** One pass of the loop *)

Lemma fetches_app (t1 t2 : list event) :
  fetches (t1 ++ t2) = (fetches t1 + fetches t2)%nat.
Proof. unfold fetches. by rewrite List.filter_app, length_app. Qed.

Lemma sleeps_app (t1 t2 : list event) :
  sleeps (t1 ++ t2) = (sleeps t1 + sleeps t2)%nat.
Proof. unfold sleeps. by rewrite List.filter_app, length_app. Qed.

Section Passes.

Variables (user_id blockchain address amount : string).
Variable timeInterval : Z.
Variable memo : option string.
Variable checkTime : Z.
Variable w : world.

Local Abbreviation body' :=
  (body user_id blockchain address amount timeInterval memo checkTime w).
Local Abbreviation poll' :=
  (poll user_id blockchain address amount timeInterval memo checkTime w).
Local Abbreviation boundary' :=
  (boundary user_id blockchain address amount timeInterval memo checkTime w).
Local Abbreviation next_state' := (next_state user_id address checkTime w).

Lemma body_expired (s : loop_state) :
  timeInterval < i s →
  body' s = inl (mk_final (Returned false) (stop_events s) (trace s)).
Proof. intros H. unfold body. destruct (Z.leb_spec (i s) timeInterval); [lia | done]. Qed.

Lemma body_stopped (s : loop_state) :
  i s ≤ timeInterval → stop_events s !! user_id = Some true →
  body' s = inl (mk_final (Returned false) (stop_events s) (trace s)).
Proof.
  intros Hi Hset. unfold body, is_set.
  destruct (Z.leb_spec (i s) timeInterval); [| lia].
  by rewrite (signal_for_present _ _ _ Hset).
Qed.

Lemma body_unsupported (s : loop_state) :
  i s ≤ timeInterval → (signal_for user_id (stop_events s)).1 = false →
  blockchain ≠ "ton"%string →
  body' s = inl (mk_final (Raised ValueError)
                   (signal_for user_id (stop_events s)).2 (trace s)).
Proof.
  intros Hi Hunset Hne. unfold body, is_set.
  destruct (Z.leb_spec (i s) timeInterval); [| lia].
  destruct (signal_for user_id (stop_events s)) as [stopped reg]; cbn in *. subst.
  destruct (String.eqb_spec blockchain "ton"); done.
Qed.

Lemma body_running (s : loop_state) :
  i s ≤ timeInterval → (signal_for user_id (stop_events s)).1 = false →
  blockchain = "ton"%string →
  body' s =
    if cycle_matches amount memo (w (cycle_no s))
    then inl (mk_final (Returned true)
                (intrusions (while_fetching (w (cycle_no s)))
                   (signal_for user_id (stop_events s)).2)
                (trace s ++ [Fetch address]))
    else inr (next_state' s).
Proof.
  intros Hi Hunset ->. unfold body, is_set, next_state, cycle_matches, page.
  destruct (Z.leb_spec (i s) timeInterval); [| lia].
  destruct (signal_for user_id (stop_events s)) as [stopped reg]; cbn in *. subst.
  destruct (existsb _ _); [done |]. by rewrite <- app_assoc.
Qed.

(** Every way a pass can go. *)
Lemma body_cases (s : loop_state) :
  (timeInterval < i s ∧
     body' s = inl (mk_final (Returned false) (stop_events s) (trace s)))
  ∨ (i s ≤ timeInterval ∧ stop_events s !! user_id = Some true ∧
     body' s = inl (mk_final (Returned false) (stop_events s) (trace s)))
  ∨ (i s ≤ timeInterval ∧ (signal_for user_id (stop_events s)).1 = false ∧
     blockchain ≠ "ton"%string ∧
     body' s = inl (mk_final (Raised ValueError)
                      (signal_for user_id (stop_events s)).2 (trace s)))
  ∨ (i s ≤ timeInterval ∧ (signal_for user_id (stop_events s)).1 = false ∧
     blockchain = "ton"%string ∧
     cycle_matches amount memo (w (cycle_no s)) = true ∧
     body' s = inl (mk_final (Returned true)
                      (intrusions (while_fetching (w (cycle_no s)))
                         (signal_for user_id (stop_events s)).2)
                      (trace s ++ [Fetch address])))
  ∨ (i s ≤ timeInterval ∧ (signal_for user_id (stop_events s)).1 = false ∧
     blockchain = "ton"%string ∧
     cycle_matches amount memo (w (cycle_no s)) = false ∧
     body' s = inr (next_state' s)).
Proof.
  destruct (Z.lt_ge_cases timeInterval (i s)) as [Hlt | Hle].
  { left. split; [done |]. by apply body_expired. }
  right. apply Z.ge_le_iff in Hle.
  destruct (signal_for user_id (stop_events s)).1 eqn:Hflag.
  { left. pose proof (signal_for_flag user_id (stop_events s)) as Hl.
    rewrite Hflag in Hl.
    assert (stop_events s !! user_id = Some true) as Hset.
    { unfold signal_for in *. destruct (stop_events s !! user_id) eqn:E; cbn in *.
      - by subst.
      - done. }
    split; [lia |]. split; [done |]. apply body_stopped; [lia | done]. }
  right.
  destruct (decide (blockchain = "ton"%string)) as [Hton | Hne].
  - right. pose proof (body_running s ltac:(lia) Hflag Hton) as Hb.
    destruct (cycle_matches amount memo (w (cycle_no s))) eqn:Hm.
    + left. repeat split; try done; lia.
    + right. repeat split; try done; lia.
  - left. repeat split; try done; [lia |]. apply body_unsupported; [lia | done | done].
Qed.

Lemma poll_fuel_mono (fuel fuel' : nat) (s : loop_state) (fin : final) :
  poll' fuel s = Some fin → (fuel ≤ fuel')%nat → poll' fuel' s = Some fin.
Proof.
  revert fuel' s. induction fuel as [| fuel IH]; intros fuel' s Hrun Hle; [done |].
  destruct fuel' as [| fuel']; [lia |]. cbn in *.
  destruct (body' s); [done |]. apply IH; [done | lia].
Qed.


Lemma poll_boundary (n fuel : nat) (s s' : loop_state) :
  boundary' n s = Some s' → poll' (n + fuel) s = poll' fuel s'.
Proof.
  revert s. induction n as [| n IH]; intros s Hb; cbn in *.
  - by injection Hb as ->.
  - destruct (body' s); [done |]. by apply IH.
Qed.

Lemma boundary_trace (n : nat) (s s' : loop_state) :
  boundary' n s = Some s' →
  fetches (trace s') = (fetches (trace s) + n)%nat ∧
  sleeps (trace s') = (sleeps (trace s) + n)%nat ∧
  cycle_no s' = (cycle_no s + n)%nat ∧
  i s' = i s + Z.of_nat n * checkTime.
Proof.
  revert s. induction n as [| n IH]; intros s Hb; cbn in Hb.
  - injection Hb as ->. repeat split; lia.
  - destruct (body_cases s) as [[_ E] | [(_ & _ & E) | [(_ & _ & _ & E) |
      [(_ & _ & _ & _ & E) | (_ & _ & _ & _ & E)]]]]; rewrite E in Hb; try done.
    destruct (IH _ Hb) as (Hf & Hs & Hc & Hi).
    cbn [next_state trace cycle_no i] in *.
    rewrite fetches_app in Hf. rewrite sleeps_app in Hs. cbn in *.
    repeat split; lia.
Qed.

(** With a positive poll interval the loop ends, after at most [n] passes
    that fetch when [n] poll intervals exceed what is left of the budget. *)
Lemma poll_ends (n : nat) (s : loop_state) (fuel : nat) :
  0 < checkTime → timeInterval - i s < Z.of_nat n * checkTime → (n < fuel)%nat →
  ∃ fin, poll' fuel s = Some fin ∧
         (fetches (trace_of fin) ≤ fetches (trace s) + n)%nat.
Proof.
  intros Hct. revert s fuel. induction n as [| n IH]; intros s fuel Hleft Hfuel;
    (destruct fuel as [| fuel]; [lia |]); cbn [poll].
  - rewrite body_expired by lia. eexists. split; [done |]. cbn [trace_of]. lia.
  - destruct (body_cases s) as [[_ E] | [(_ & _ & E) | [(_ & _ & _ & E) |
      [(_ & _ & _ & _ & E) | (_ & _ & _ & _ & E)]]]]; rewrite E.
    1-3: eexists; split; [done |]; cbn [trace_of]; lia.
    + eexists. split; [done |]. cbn [trace_of]. rewrite fetches_app. cbn. lia.
    + destruct (IH (next_state' s) fuel) as (fin & Hrun & Hcount); [cbn; lia | lia |].
      exists fin. split; [done |]. cbn [next_state trace] in Hcount.
      rewrite fetches_app in Hcount. cbn in Hcount. lia.
Qed.

Lemma next_state_unset (s : loop_state) :
  never_cancelled user_id w →
  (signal_for user_id (stop_events s)).1 = false →
  stop_events (next_state' s) !! user_id = Some false.
Proof.
  intros Hnever Hflag. cbn.
  destruct (Hnever (cycle_no s)) as [Hf Hs].
  apply intrusions_keep_unset; [done |].
  apply intrusions_keep_unset; [done |].
  by rewrite signal_for_flag, Hflag.
Qed.

(** A session nobody cancels returns whether a page fetched within the
    budget matches. *)
Lemma poll_never_cancelled (n : nat) (s : loop_state) (fuel : nat) :
  0 < checkTime → blockchain = "ton"%string → never_cancelled user_id w →
  timeInterval - i s < Z.of_nat n * checkTime → (n < fuel)%nat →
  i s = Z.of_nat (cycle_no s) * checkTime →
  stop_events s !! user_id = Some false →
  ∃ fin b, poll' fuel s = Some fin ∧ result_of fin = Returned b ∧
    (b = true ↔ ∃ k, (cycle_no s ≤ k)%nat ∧ Z.of_nat k * checkTime ≤ timeInterval ∧
                     cycle_matches amount memo (w k) = true).
Proof.
  intros Hct Hton Hnever. revert s fuel.
  induction n as [| n IH]; intros s fuel Hleft Hfuel Hi Hunset;
    (destruct fuel as [| fuel]; [lia |]); cbn [poll].
  - rewrite body_expired by lia. eexists _, false. repeat split; try done.
    intros (k & Hk & Hin & _). nia.
  - pose proof (signal_for_present _ _ _ Hunset) as Hsig.
    destruct (body_cases s) as [[Hlt E] | [(_ & Hset & _) | [(_ & _ & Hne & _) |
      [(Hle & Hflag & _ & Hm & E) | (Hle & Hflag & _ & Hm & E)]]]];
      try congruence; rewrite E.
    + eexists _, false. repeat split; try done.
      intros (k & Hk & Hin & _). nia.
    + eexists _, true. repeat split; try done.
      intros _. exists (cycle_no s). repeat split; [lia | lia | done].
    + destruct (IH (next_state' s) fuel) as (fin & b & Hrun & Hres & Hiff);
        [cbn; lia | lia | cbn; lia | by apply next_state_unset |].
      exists fin, b. repeat split; try done.
      * intros Hb. apply Hiff in Hb as (k & Hk & Hin & Hmk). cbn in Hk.
        exists k. repeat split; [lia | done | done].
      * intros (k & Hk & Hin & Hmk). apply Hiff. exists k. cbn.
        repeat split; try done.
        destruct (decide (k = cycle_no s)) as [-> | ?]; [congruence | lia].
Qed.

(** Without a positive poll interval, nothing to find and nobody to cancel,
    the loop stays where it is. *)
Lemma poll_stuck (fuel : nat) (s : loop_state) :
  checkTime ≤ 0 → blockchain = "ton"%string → never_cancelled user_id w →
  (∀ k, cycle_matches amount memo (w k) = false) →
  i s ≤ timeInterval → stop_events s !! user_id = Some false →
  poll' fuel s = None.
Proof.
  intros Hct Hton Hnever Hnone. revert s.
  induction fuel as [| fuel IH]; intros s Hi Hunset; [done |]. cbn [poll].
  pose proof (signal_for_present _ _ _ Hunset) as Hsig.
  rewrite body_running by (rewrite ?Hsig; done). rewrite Hnone.
  apply IH; [cbn; lia |]. apply next_state_unset; [done | by rewrite Hsig].
Qed.

Lemma boundary_stuck (n : nat) (s : loop_state) :
  checkTime ≤ 0 → blockchain = "ton"%string → never_cancelled user_id w →
  (∀ k, cycle_matches amount memo (w k) = false) →
  i s ≤ timeInterval → stop_events s !! user_id = Some false →
  ∃ s', boundary' n s = Some s' ∧ i s' ≤ timeInterval.
Proof.
  intros Hct Hton Hnever Hnone. revert s.
  induction n as [| n IH]; intros s Hi Hunset; [by exists s |]. cbn [boundary].
  pose proof (signal_for_present _ _ _ Hunset) as Hsig.
  rewrite body_running by (rewrite ?Hsig; done). rewrite Hnone.
  apply IH; [cbn; lia |]. apply next_state_unset; [done | by rewrite Hsig].
Qed.

(** On the supported ledger the call never ends in an exception. *)
Lemma poll_ton_returns (fuel : nat) (s : loop_state) (fin : final) :
  blockchain = "ton"%string → poll' fuel s = Some fin →
  ∃ b, result_of fin = Returned b.
Proof.
  intros Hton. revert s. induction fuel as [| fuel IH]; intros s Hrun; [done |].
  cbn [poll] in Hrun.
  destruct (body_cases s) as [[_ E] | [(_ & _ & E) | [(_ & _ & Hne & _) |
    [(_ & _ & _ & _ & E) | (_ & _ & _ & _ & E)]]]]; try done;
    rewrite E in Hrun; try (injection Hrun as <-; by eexists).
  by eapply IH.
Qed.

End Passes.

(** ** The match predicate and the page *)

Lemma matches_spec (trx : Trx.t) (amount : string) (memo : option string) :
  matches trx amount memo = true ↔ Trx.amount trx = amount ∧ memo_ok memo trx.
Proof.
  unfold matches, memo_ok. rewrite andb_true_iff, String.eqb_eq.
  apply and_iff_compat_l. destruct memo as [m |].
  - split.
    + intros H. right. exists m. split; [done |].
      destruct (Trx.memo trx); try done. by apply String.eqb_eq in H as ->.
    + intros [? | (m' & [= <-] & ->)]; [done |]. apply String.eqb_refl.
  - split; [by left | done].
Qed.

Lemma cycle_matches_spec (amount : string) (memo : option string) (c : cycle) :
  cycle_matches amount memo c = true ↔
  ∃ trx, trx ∈ page c ∧ Trx.amount trx = amount ∧ memo_ok memo trx.
Proof.
  unfold cycle_matches. rewrite existsb_exists. split.
  - intros (trx & Hin & Hm). exists trx. split; [by apply list_elem_of_In |].
    by apply matches_spec.
  - intros (trx & Hin & Hm). exists trx. split; [by apply list_elem_of_In |].
    by apply matches_spec.
Qed.

Lemma failed_fetch_empty (r : response) :
  fetch_failed r = true → (getTonLastTransactions r).1 = [].
Proof.
  unfold fetch_failed. destruct r as [| | | data]; try done. cbn.
  destruct (parse_page data) as [log [info | e]]; done.
Qed.

Lemma page_absorbed (w : world) (k : nat) : page (absorbed w k) = page (w k).
Proof.
  unfold absorbed, page. destruct (fetch_failed (answer (w k))) eqn:E; [| done].
  by rewrite (failed_fetch_empty _ E).
Qed.

(** ** Sessions in two worlds *)

Lemma flag_after_spec (b : string) (l : list intrusion) (reg : registry) :
  intrusions l reg !! b = flag_after b l (reg !! b).
Proof.
  revert reg. induction l as [| a l IH]; intros reg; [done |].
  cbn. unfold intrusions in IH. rewrite IH. f_equal.
  destruct a as [u | u]; cbn;
    rewrite ?stop_monitoring_insert, ?clear_signal_insert;
    (case_decide; [subst; by rewrite lookup_insert_eq | by rewrite lookup_insert_ne]).
Qed.

Section Worlds.

Variables (user_id blockchain address amount : string).
Variable timeInterval : Z.
Variable memo : option string.
Variable checkTime : Z.
Variables w w' : world.

Hypothesis same_pages : ∀ k, page (w k) = page (w' k).
Hypothesis same_while_fetching : ∀ k o,
  flag_after user_id (while_fetching (w k)) o =
  flag_after user_id (while_fetching (w' k)) o.
Hypothesis same_while_sleeping : ∀ k o,
  flag_after user_id (while_sleeping (w k)) o =
  flag_after user_id (while_sleeping (w' k)) o.



End Worlds.

Lemma flag_after_foreign_stop (a b : string) (l : list intrusion) (o : option bool) :
  a ≠ b → flag_after b (Stops a :: l) o = flag_after b l o.
Proof. intros Hne. cbn. by rewrite decide_False. Qed.

Lemma body_absorbed (user_id blockchain address amount : string) (timeInterval : Z)
    (memo : option string) (checkTime : Z) (w : world) (s : loop_state) :
  body user_id blockchain address amount timeInterval memo checkTime (absorbed w) s =
  body user_id blockchain address amount timeInterval memo checkTime w s.
Proof.
  unfold body. fold (page (absorbed w (cycle_no s))) (page (w (cycle_no s))).
  rewrite page_absorbed.
  assert (while_fetching (absorbed w (cycle_no s)) = while_fetching (w (cycle_no s)))
    as -> by (unfold absorbed; by destruct (fetch_failed _)).
  assert (while_sleeping (absorbed w (cycle_no s)) = while_sleeping (w (cycle_no s)))
    as -> by (unfold absorbed; by destruct (fetch_failed _)).
  done.
Qed.

Lemma poll_absorbed (user_id blockchain address amount : string) (timeInterval : Z)
    (memo : option string) (checkTime : Z) (w : world) (fuel : nat) (s : loop_state) :
  poll user_id blockchain address amount timeInterval memo checkTime (absorbed w) fuel s =
  poll user_id blockchain address amount timeInterval memo checkTime w fuel s.
Proof.
  revert s. induction fuel as [| fuel IH]; intros s; [done |]. cbn.
  rewrite body_absorbed. destruct (body _ _ _ _ _ _ _ w s); [done | apply IH].
Qed.

(** ** The shape of the shortest decimal *)

Lemma string_app_cons (x : ascii) (a b : string) : String x a +:+ b = String x (a +:+ b).
Proof. reflexivity. Qed.

Lemma string_app_nil_l (b : string) : "" +:+ b = b.
Proof. reflexivity. Qed.

Lemma string_app_nil_r (a : string) : a +:+ "" = a.
Proof.
  induction a as [| x a IH]; [done |].
  rewrite string_app_cons. by f_equal.
Qed.

Lemma string_app_assoc (a b c : string) : (a +:+ b) +:+ c = a +:+ (b +:+ c).
Proof.
  induction a as [| x a IH]; [done |].
  rewrite !string_app_cons. by f_equal.
Qed.

Lemma pad_digits_acc (w : nat) (n : Z) (acc : string) :
  pad_digits w n acc = pad_digits w n "" +:+ acc.
Proof.
  revert n acc. induction w as [| w IH]; intros n acc; cbn [pad_digits]; [done |].
  rewrite (IH _ (String _ acc)), (IH _ (String _ "")). by rewrite string_app_assoc.
Qed.

Lemma pad_digits_snoc (w : nat) (n : Z) :
  pad_digits (S w) n "" =
  pad_digits w (n / 10) "" +:+ String (digit_char (n mod 10)) "".
Proof. cbn [pad_digits]. apply pad_digits_acc. Qed.

Lemma rstrip_cons (c a : ascii) (r : string) :
  rstrip c (String a r) =
  match rstrip c r with
  | EmptyString => if Ascii.eqb a c then EmptyString else String a EmptyString
  | r' => String a r'
  end.
Proof. reflexivity. Qed.

Lemma rstrip_app (c : ascii) (s1 s2 : string) :
  rstrip c (s1 +:+ s2) =
  match rstrip c s2 with
  | EmptyString => rstrip c s1
  | r => s1 +:+ r
  end.
Proof.
  induction s1 as [| a s1 IH].
  - rewrite string_app_nil_l. by destruct (rstrip c s2).
  - rewrite string_app_cons. cbn [rstrip]. rewrite IH.
    destruct (rstrip c s2) as [| x r]; [done |].
    rewrite string_app_cons. by destruct s1.
Qed.

Lemma digit_char_cases (x : Z) :
  0 ≤ x < 10 →
  digit_char x ≠ "."%char ∧ (digit_char x = "0"%char ↔ x = 0).
Proof.
  intros Hx.
  assert (x = 0 ∨ x = 1 ∨ x = 2 ∨ x = 3 ∨ x = 4 ∨ x = 5 ∨ x = 6 ∨ x = 7 ∨
          x = 8 ∨ x = 9) as Hcases by lia.
  repeat (destruct Hcases as [-> | Hcases]); try subst x;
    (split; [discriminate | split; [try discriminate; done | try discriminate; done]]).
Qed.

(** Stripping the zeros of a block of [w] digits leaves the [w'] leading
    ones, the last of which is not a zero. *)
Lemma rstrip_zero_pad (w : nat) (r : Z) :
  0 ≤ r < 10 ^ Z.of_nat w →
  ∃ (w' : nat) (r' : Z),
    (w' ≤ w)%nat ∧ r = r' * 10 ^ (Z.of_nat w - Z.of_nat w') ∧
    0 ≤ r' < 10 ^ Z.of_nat w' ∧ (w' = 0%nat ∨ r' mod 10 ≠ 0) ∧
    rstrip "0" (pad_digits w r "") = pad_digits w' r' "".
Proof.
  revert r. induction w as [| w IH]; intros r Hr.
  - exists 0%nat, r. cbn in *. repeat split; lia.
  - rewrite Nat2Z.inj_succ, Z.pow_succ_r in Hr by lia.
    pose proof (Z.mod_pos_bound r 10 ltac:(lia)) as Hd.
    pose proof (Z.div_mod r 10 ltac:(lia)) as Hdm.
    destruct (digit_char_cases (r mod 10) Hd) as [_ Hzero].
    rewrite pad_digits_snoc, rstrip_app. cbn [rstrip].
    destruct (Ascii.eqb_spec (digit_char (r mod 10)) "0") as [E | E].
    + apply Hzero in E.
      destruct (IH (r / 10)) as (w' & r' & Hle & Hval & Hr' & Hlast & Hstr); [lia |].
      exists w', r'. repeat split; try lia; [| done].
      replace (Z.of_nat (S w) - Z.of_nat w') with
        (Z.succ (Z.of_nat w - Z.of_nat w')) by lia.
      rewrite Z.pow_succ_r by lia. lia.
    + exists (S w), r. rewrite pad_digits_snoc.
      rewrite Nat2Z.inj_succ, Z.pow_succ_r, Z.sub_diag by lia.
      repeat split; try lia. right. intros H0. apply E. by apply Hzero.
Qed.

Lemma rstrip_point_pad (w : nat) (r : Z) :
  rstrip "." (pad_digits w r "") = pad_digits w r "".
Proof.
  destruct w as [| w]; [done |].
  rewrite pad_digits_snoc, rstrip_app. cbn [rstrip].
  destruct (digit_char_cases (r mod 10) (Z.mod_pos_bound r 10 ltac:(lia))) as [Hne _].
  by destruct (Ascii.eqb_spec (digit_char (r mod 10)) ".").
Qed.

Lemma rstrip_point_uint (d : Decimal.uint) :
  rstrip "." (NilEmpty.string_of_uint d) = NilEmpty.string_of_uint d.
Proof.
  induction d as [| d IH | d IH | d IH | d IH | d IH | d IH | d IH | d IH | d IH | d IH];
    cbn [NilEmpty.string_of_uint]; [done | ..];
    rewrite rstrip_cons, IH; by destruct (NilEmpty.string_of_uint d).
Qed.

Lemma rstrip_point_digits (d : Decimal.uint) :
  rstrip "." (NilZero.string_of_uint d) = NilZero.string_of_uint d.
Proof. destruct d; [done | ..]; apply rstrip_point_uint. Qed.

(** [shortest_decimal n d] is the integer part of [n / 10^d], followed, when
    [10^d] does not divide [n], by a point and the [w'] digits of the
    fraction up to its last non-zero digit. *)
Lemma shortest_decimal_shape (n d : Z) :
  0 ≤ n → 0 ≤ d →
  ∃ (w' : nat) (r' : Z),
    Z.of_nat w' ≤ d ∧ n mod 10 ^ d = r' * 10 ^ (d - Z.of_nat w') ∧
    0 ≤ r' < 10 ^ Z.of_nat w' ∧ (w' = 0%nat ∨ r' mod 10 ≠ 0) ∧
    shortest_decimal n d =
      str_of_nonneg (n / 10 ^ d) +:+
      match w' with
      | O => ""
      | S _ => String "." (pad_digits w' r' "")
      end.
Proof.
  intros Hn Hd.
  assert (0 < 10 ^ d) as Hp by (apply Z.pow_pos_nonneg; lia).
  destruct (rstrip_zero_pad (Z.to_nat d) (n mod 10 ^ d))
    as (w' & r' & Hle & Hval & Hr' & Hlast & Hstr).
  { rewrite Z2Nat.id by lia. by apply Z.mod_pos_bound. }
  rewrite Z2Nat.id in Hval by lia.
  exists w', r'. repeat split; try lia.
  unfold shortest_decimal, fixed_point.
  rewrite (rstrip_app "0").
  change (String "." (pad_digits (Z.to_nat d) (n mod 10 ^ d) ""))
    with ("." +:+ pad_digits (Z.to_nat d) (n mod 10 ^ d) "").
  rewrite (rstrip_app "0" "."), Hstr.
  destruct w' as [| w'].
  - cbn [pad_digits]. change (rstrip "0" ".") with ".". cbv iota.
    rewrite (rstrip_app "."). change (rstrip "." ".") with "". cbv iota.
    rewrite string_app_nil_r. apply rstrip_point_digits.
  - assert (∃ c s, pad_digits (S w') r' "" = String c s) as (c & s & E).
    { rewrite pad_digits_snoc. destruct (pad_digits w' (r' / 10) ""); by eexists _, _. }
    pose proof (rstrip_point_pad (S w') r') as Hpt. rewrite E in *.
    change ("." +:+ String c s) with (String "." (String c s)). cbv iota.
    by rewrite rstrip_app, rstrip_cons, Hpt.
Qed.

(** ** Cancelling while the session is suspended *)

Lemma flag_after_app (b : string) (l1 l2 : list intrusion) (o : option bool) :
  flag_after b (l1 ++ l2) o = flag_after b l2 (flag_after b l1 o).
Proof. unfold flag_after. by rewrite foldl_app. Qed.

Lemma flag_after_stays_set (b : string) (l : list intrusion) :
  Starts b ∉ l → flag_after b l (Some true) = Some true.
Proof.
  induction l as [| a l IH]; intros Hl; [done |]. cbn.
  assert (Starts b ∉ l) as Hl' by (intros ?; apply Hl; by right).
  destruct a as [u | u]; case_decide; subst; try (by apply IH).
  exfalso. apply Hl. by left.
Qed.

(** The last word about [b] is a stop: the signal is set. *)
Lemma flag_after_stop_last (b : string) (l1 l2 : list intrusion) (o : option bool) :
  Starts b ∉ l2 → flag_after b (l1 ++ Stops b :: l2) o = Some true.
Proof.
  intros Hl2. rewrite flag_after_app. cbn. rewrite decide_True by done.
  by apply flag_after_stays_set.
Qed.

Lemma intrusions_app (l1 l2 : list intrusion) (reg : registry) :
  intrusions (l1 ++ l2) reg = intrusions l2 (intrusions l1 reg).
Proof. unfold intrusions. by rewrite foldl_app. Qed.

(* ===================================================================== *)
(** * The claims *)
(* ===================================================================== *)

(** ** C1 *)

(** C1.  A session on the ledger ['ton'] with [checkTime > 0] and
    [timeInterval >= 0] that nobody cancels returns [True] if and only if
    some cycle [k] that starts with [elapsed = k * checkTime <= timeInterval]
    fetches a page holding a transaction whose amount is the expected string
    and whose memo meets the memo criterion; otherwise it returns [False].
    The bound is inclusive: with a budget of 10 and an interval of 5, a
    payment that first shows in the third poll, at [elapsed = 10], makes the
    call return [True]. *)
Theorem monitor_true_iff_payment_within_budget :
  (∀ (user_id address amount : string) (timeInterval : Z) (memo : option string)
     (checkTime : Z) (w : world) (reg : registry) (fuel : nat),
     0 < checkTime → 0 ≤ timeInterval → never_cancelled user_id w →
     (Z.to_nat (timeInterval / checkTime) + 1 < fuel)%nat →
     ∃ fin b,
       monitorTransactions user_id "ton" address amount timeInterval memo
         checkTime w fuel reg = Some fin ∧
       result_of fin = Returned b ∧
       (b = true ↔
        ∃ k trx, Z.of_nat k * checkTime ≤ timeInterval ∧ trx ∈ page (w k) ∧
                 Trx.amount trx = amount ∧ memo_ok memo trx))
  ∧ (monitorTransactions "user123" "ton" "wallet_address" "10" 10 None 5
       Sample.third_poll 3 ∅ =
     Some (mk_final (Returned true) {["user123" := false]}
             [Fetch "wallet_address"; Sleep 5; Fetch "wallet_address"; Sleep 5;
              Fetch "wallet_address"])
     ∧ i <$> boundary "user123" "ton" "wallet_address" "10" 10 None 5
               Sample.third_poll 2 (start "user123" ∅) = Some 10).
Proof.
  split.
  - intros user_id address amount timeInterval memo checkTime w reg fuel
      Hct Hti Hnever Hfuel.
    set (n := (Z.to_nat (timeInterval / checkTime) + 1)%nat) in *.
    destruct (poll_never_cancelled user_id "ton" address amount timeInterval memo
                checkTime w n (start user_id reg) fuel) as (fin & b & Hrun & Hres & Hiff);
      try done.
    + cbn [start i]. subst n.
      pose proof (Z.div_pos timeInterval checkTime ltac:(lia) Hct).
      pose proof (Z.mul_succ_div_gt timeInterval checkTime Hct). nia.
    + cbn. by rewrite clear_signal_insert, lookup_insert_eq.
    + exists fin, b. repeat split; try done.
      * intros Hb. apply Hiff in Hb as (k & _ & Hin & Hm).
        apply cycle_matches_spec in Hm as (trx & ? & ? & ?). by exists k, trx.
      * intros (k & trx & Hin & Hm). apply Hiff. exists k.
        split; [cbn; lia |]. split; [done |]. apply cycle_matches_spec. by exists trx.
  - split; vm_compute; reflexivity.
Qed.

Lemma monitor_true_iff_payment_within_budget_witness :
  0 < 5 ∧ 0 ≤ 10 ∧ never_cancelled "user123" Sample.third_poll ∧
  ∃ fin b,
    monitorTransactions "user123" "ton" "wallet_address" "10" 10 None 5
      Sample.third_poll 4 ∅ = Some fin ∧
    result_of fin = Returned b ∧
    (b = true ↔
     ∃ k trx, Z.of_nat k * 5 ≤ 10 ∧ trx ∈ page (Sample.third_poll k) ∧
              Trx.amount trx = "10"%string ∧ memo_ok None trx).
Proof.
  assert (never_cancelled "user123" Sample.third_poll) as Hnever.
  { intros k. split; apply not_elem_of_nil. }
  split; [lia |]. split; [lia |]. split; [exact Hnever |].
  apply (proj1 monitor_true_iff_payment_within_budget "user123" "wallet_address" "10"
           10 None 5 Sample.third_poll ∅ 4%nat); [lia | lia | exact Hnever |].
  vm_compute. lia.
Defined.

(** ** C2 *)

(** C2, as stated, fails in its second half.  The signal is read at the top
    of the loop and nowhere else.  A session stopped while it fetches the
    page that holds the payment returns [True].  And a stop that is followed,
    in the same sleep, by a new call of [monitorTransactions] for the same
    user is cleared before the session reads it: the session polls on and
    returns [True] on the next page. *)
Lemma stopped_session_can_return_true :
  Stops "user123" ∈ while_fetching (Sample.stop_while_paid 0%nat)
  ∧ monitorTransactions "user123" "ton" "wallet_address" "10" 3600 None 5
      Sample.stop_while_paid 1 ∅ =
    Some (mk_final (Returned true) {["user123" := true]} [Fetch "wallet_address"])
  ∧ Stops "user123" ∈ while_sleeping (Scenario.restart_then_paid 0%nat)
  ∧ monitorTransactions "user123" "ton" "wallet_address" "10" 3600 None 5
      Scenario.restart_then_paid 2 ∅ =
    Some (mk_final (Returned true) {["user123" := false]}
            [Fetch "wallet_address"; Sleep 5; Fetch "wallet_address"]).
Proof.
  split; [by left |]. split; [vm_compute; reflexivity |].
  split; [by left |]. vm_compute. reflexivity.
Qed.

(** C2, amended.  A pass through the top of the loop that finds the user's
    stop signal set ends the call with [False] at once: the registry and the
    trace are those of the top of that cycle, so no fetch and no sleep is
    issued in it.  Hence a session that comes back to the top of the loop
    after [n] cycles with the signal set returns [False] there, having
    fetched and slept [n] times, once per earlier cycle, and no more.  A call
    of [stop_monitoring] during the fetch or the sleep of a cycle is seen in
    this way at the cycle boundary that follows under two conditions: the
    pass comes back to the top of the loop (its page does not match), and
    the stop is not followed in that cycle by a new start for the same
    user. *)
Theorem stop_signal_ends_session_at_cycle_top :
  ∀ (user_id blockchain address amount : string) (timeInterval : Z)
    (memo : option string) (checkTime : Z) (w : world),
    (∀ s : loop_state,
       stop_events s !! user_id = Some true →
       body user_id blockchain address amount timeInterval memo checkTime w s =
         inl (mk_final (Returned false) (stop_events s) (trace s)))
    ∧ (∀ (reg : registry) (n fuel : nat) (s : loop_state),
         boundary user_id blockchain address amount timeInterval memo checkTime w
           n (start user_id reg) = Some s →
         stop_events s !! user_id = Some true →
         (n < fuel)%nat →
         monitorTransactions user_id blockchain address amount timeInterval memo
           checkTime w fuel reg =
           Some (mk_final (Returned false) (stop_events s) (trace s))
         ∧ fetches (trace s) = n ∧ sleeps (trace s) = n)
    ∧ (∀ (s s' : loop_state) (l1 l2 : list intrusion) (fuel : nat),
         body user_id blockchain address amount timeInterval memo checkTime w s =
           inr s' →
         while_fetching (w (cycle_no s)) ++ while_sleeping (w (cycle_no s)) =
           l1 ++ Stops user_id :: l2 →
         Starts user_id ∉ l2 →
         stop_events s' !! user_id = Some true
         ∧ trace s' = trace s ++ [Fetch address; Sleep checkTime]
         ∧ poll user_id blockchain address amount timeInterval memo checkTime w
             (S fuel) s' =
           Some (mk_final (Returned false) (stop_events s') (trace s'))).
Proof.
  intros user_id blockchain address amount timeInterval memo checkTime w.
  assert (∀ s : loop_state,
            stop_events s !! user_id = Some true →
            body user_id blockchain address amount timeInterval memo checkTime w s =
              inl (mk_final (Returned false) (stop_events s) (trace s))) as Htop.
  { intros s Hset. destruct (Z.lt_ge_cases timeInterval (i s)).
    - by apply body_expired.
    - apply body_stopped; [lia | done]. }
  split; [exact Htop |]. split.
  - intros reg n fuel s Hb Hset Hfuel. split.
    + unfold monitorTransactions.
      replace fuel with (n + S (fuel - n - 1))%nat by lia.
      rewrite (poll_boundary _ _ _ _ _ _ _ _ _ _ _ _ Hb). cbn [poll].
      by rewrite Htop.
    + apply boundary_trace in Hb as (Hf & Hs & _). cbn in Hf, Hs. lia.
  - intros s s' l1 l2 fuel Hpass Hsplit Hl2.
    destruct (body_cases user_id blockchain address amount timeInterval memo
                checkTime w s)
      as [[_ E] | [(_ & _ & E) | [(_ & _ & _ & E) |
          [(_ & _ & _ & _ & E) | (_ & _ & _ & _ & E)]]]];
      rewrite E in Hpass; try done.
    injection Hpass as <-.
    assert (stop_events (next_state user_id address checkTime w s) !! user_id =
            Some true) as Hset.
    { cbn [next_state stop_events].
      rewrite <- intrusions_app, Hsplit, flag_after_spec.
      by apply flag_after_stop_last. }
    split; [exact Hset |]. split; [done |].
    cbn [poll]. by rewrite Htop.
Qed.

Lemma stop_signal_ends_session_at_cycle_top_witness :
  boundary "user123" "ton" "wallet_address" "10" 3600 None 5
    Sample.stop_in_first_sleep 1 (start "user123" ∅) =
    Some (mk_state 1 5 {["user123" := true]} [Fetch "wallet_address"; Sleep 5])
  ∧ ({["user123" := true]} : registry) !! "user123" = Some true
  ∧ (1 < 2)%nat
  ∧ monitorTransactions "user123" "ton" "wallet_address" "10" 3600 None 5
      Sample.stop_in_first_sleep 2 ∅ =
      Some (mk_final (Returned false) {["user123" := true]}
              [Fetch "wallet_address"; Sleep 5])
  ∧ fetches [Fetch "wallet_address"; Sleep 5] = 1%nat
  ∧ sleeps [Fetch "wallet_address"; Sleep 5] = 1%nat
  ∧ body "user123" "ton" "wallet_address" "10" 3600 None 5
      Sample.stop_in_first_sleep (start "user123" ∅) =
    inr (mk_state 1 5 {["user123" := true]} [Fetch "wallet_address"; Sleep 5])
  ∧ while_fetching (Sample.stop_in_first_sleep 0%nat) ++
    while_sleeping (Sample.stop_in_first_sleep 0%nat) = [] ++ Stops "user123" :: []
  ∧ Starts "user123" ∉ ([] : list intrusion).
Proof.
  assert (boundary "user123" "ton" "wallet_address" "10" 3600 None 5
            Sample.stop_in_first_sleep 1 (start "user123" ∅) =
          Some (mk_state 1 5 {["user123" := true]} [Fetch "wallet_address"; Sleep 5]))
    as Hb by (vm_compute; reflexivity).
  assert (({["user123" := true]} : registry) !! "user123" = Some true)
    as Hset by (vm_compute; reflexivity).
  assert (body "user123" "ton" "wallet_address" "10" 3600 None 5
            Sample.stop_in_first_sleep (start "user123" ∅) =
          inr (mk_state 1 5 {["user123" := true]} [Fetch "wallet_address"; Sleep 5]))
    as Hpass by (vm_compute; reflexivity).
  assert (Starts "user123" ∉ ([] : list intrusion)) as Hl2 by apply not_elem_of_nil.
  pose proof (stop_signal_ends_session_at_cycle_top "user123" "ton" "wallet_address"
                "10" 3600 None 5 Sample.stop_in_first_sleep) as (_ & Hrun & Hmid).
  destruct (Hrun ∅ 1%nat 2%nat _ Hb Hset ltac:(lia)) as (H1 & H2 & H3).
  destruct (Hmid _ _ [] [] 0%nat Hpass eq_refl Hl2) as (_ & _ & _).
  repeat split; try done. lia.
Defined.

(** ** C3 *)

(** C3, as stated, fails: the quotient is a binary64 number, and one wei over
    one ether is printed as ["1"], not as ["1.000000000000000001"]. *)
Lemma convert_amount_rounds_large_amounts :
  decimals_map !! lower "eth" = Some 18
  ∧ 0 ≤ 10 ^ 18 + 1
  ∧ convert_amount (10 ^ 18 + 1) "eth" = Ok "1"%string
  ∧ shortest_decimal (10 ^ 18 + 1) 18 = "1.000000000000000001"%string
  ∧ convert_amount (10 ^ 18 + 1) "eth" ≠ Ok (shortest_decimal (10 ^ 18 + 1) 18).
Proof.
  split; [vm_compute; reflexivity |]. split; [vm_compute; discriminate |].
  split; [vm_compute; reflexivity |]. split; [vm_compute; reflexivity |].
  vm_compute. discriminate.
Qed.

(** C3 (amended).  For every ledger of the mapping, looked up without regard
    to case, and every raw amount from 0 up to, not including, [2^52],
    [convert_amount] returns ["0"] for 0 and otherwise the shortest exact
    decimal of [amount / 10^decimals]: the value written with exactly
    [decimals] fractional digits, trailing zeros and then a trailing point
    stripped.  That string is the integer part followed, unless the amount is
    a whole number of coins, by a point and the fraction up to its last
    non-zero digit.  So 100000000 satoshi print as ["1"] and 150000000 as
    ["1.5"]. *)
Theorem convert_amount_exact_below_2_52 :
  (∀ (blockchain : string) (decimals amount : Z),
     decimals_map !! lower blockchain = Some decimals →
     0 ≤ amount < 2 ^ 52 →
     convert_amount amount blockchain =
       Ok (if amount =? 0 then "0" else shortest_decimal amount decimals)
     ∧ ∃ (w' : nat) (r' : Z),
         Z.of_nat w' ≤ decimals ∧
         amount = amount / 10 ^ decimals * 10 ^ decimals +
                  r' * 10 ^ (decimals - Z.of_nat w') ∧
         0 ≤ r' < 10 ^ Z.of_nat w' ∧ (w' = 0%nat ∨ r' mod 10 ≠ 0) ∧
         shortest_decimal amount decimals =
           str_of_nonneg (amount / 10 ^ decimals) +:+
           match w' with
           | O => ""
           | S _ => String "." (pad_digits w' r' "")
           end)
  ∧ convert_amount 100000000 "btc" = Ok "1"
  ∧ convert_amount 150000000 "btc" = Ok "1.5".
Proof.
  split; [| split; vm_compute; reflexivity].
  intros blockchain decimals amount Hmap Hrange.
  split; [by apply convert_amount_below_2_52 |].
  assert (0 < decimals) as Hd
    by (destruct (decimals_map_cases _ _ Hmap) as [-> | [-> | ->]]; lia).
  destruct (shortest_decimal_shape amount decimals) as (w' & r' & ? & Hval & ? & ? & ?);
    [lia | lia |].
  exists w', r'. repeat split; try done; try lia.
  rewrite <- Hval.
  pose proof (Z.div_mod amount (10 ^ decimals)) as Hdm.
  assert (0 < 10 ^ decimals) by (apply Z.pow_pos_nonneg; lia). lia.
Qed.

Lemma convert_amount_exact_below_2_52_witness :
  decimals_map !! lower "TON" = Some 9
  ∧ 0 ≤ 1500000000 < 2 ^ 52
  ∧ convert_amount 1500000000 "TON" =
      Ok (if 1500000000 =? 0 then "0" else shortest_decimal 1500000000 9)
  ∧ shortest_decimal 1500000000 9 = "1.5".
Proof.
  assert (decimals_map !! lower "TON" = Some 9) as Hmap by (vm_compute; reflexivity).
  assert (0 ≤ 1500000000 < 2 ^ 52) as Hrange by lia.
  split; [exact Hmap |]. split; [exact Hrange |].
  split; [| vm_compute; reflexivity].
  exact (proj1 (proj1 convert_amount_exact_below_2_52 "TON" 9 1500000000 Hmap Hrange)).
Defined.

(** ** C4 *)

(** C4.  A record without its [hash] is logged and skipped and the record
    before it is returned.  A record without its [in_msg] is not: the memo is
    read outside the inner [try], the [KeyError] reaches the outer handler
    and the function returns the empty list, the well-formed record with
    it.  A record without its [value] ends the same way: [int(None)] raises
    [TypeError], which the inner handler does not catch. *)
Theorem record_without_in_msg_drops_the_page :
  getTonLastTransactions (Body (Sample.page_of [Sample.good])) =
    ([Sample.parsed_good], [])
  ∧ getTonLastTransactions (Body (Sample.page_of [Sample.good; Sample.no_hash])) =
    ([Sample.parsed_good], [Warning KeyError])
  ∧ getTonLastTransactions (Body (Sample.page_of [Sample.good; Sample.no_in_msg])) =
    ([], [FetchError])
  ∧ read_memo Sample.no_in_msg = Raise KeyError
  ∧ getTonLastTransactions (Body (Sample.page_of [Sample.good; Sample.no_value])) =
    ([], [FetchError])
  ∧ build_entry [(JStr "0:abc", JStr "EQabc")] Sample.no_value JNull = Raise TypeError.
Proof. repeat split; vm_compute; reflexivity. Qed.

(** ** C5 *)

(** C5.  The ledger is tested inside the loop, behind the loop condition and
    the stop test.  With a budget of zero or more an unsupported ledger makes
    the first pass raise [ValueError] before any fetch or sleep; with a
    negative budget the loop is never entered and the call returns [False]
    without raising. *)
Theorem unsupported_ledger_with_negative_budget_returns_false :
  monitorTransactions "user123" "btc" "wallet_address" "10" (-1) None 5
    Sample.silence 1 ∅ =
    Some (mk_final (Returned false) {["user123" := false]} [])
  ∧ monitorTransactions "user123" "btc" "wallet_address" "10" 0 None 5
      Sample.silence 1 ∅ =
      Some (mk_final (Raised ValueError) {["user123" := false]} []).
Proof. split; vm_compute; reflexivity. Qed.


(** And whenever the budget is negative, no ledger is ever looked at. *)
Lemma negative_budget_returns_false
    (user_id blockchain address amount : string) (timeInterval : Z)
    (memo : option string) (checkTime : Z) (w : world) (reg : registry) (fuel : nat) :
  timeInterval < 0 →
  monitorTransactions user_id blockchain address amount timeInterval memo checkTime
    w (S fuel) reg =
    Some (mk_final (Returned false) (clear_signal user_id reg) []).
Proof.
  intros Hti. unfold monitorTransactions. cbn [poll].
  by rewrite body_expired.
Qed.

(** ** C6 *)

(** C6.  When the fetch fails (the request raises, the status is bad, or the
    body cannot be processed) [getTonLastTransactions] returns the empty list
    instead of raising.  A running session on ['ton'] goes through such a
    cycle as through one without transactions: it sleeps, adds [checkTime] to
    the counter and is back at the top of the loop; the whole call does what
    it would do had every failed fetch answered an empty page, and it never
    ends in an exception. *)
Theorem fetch_failure_is_an_empty_page :
  ∀ (user_id address amount : string) (timeInterval : Z) (memo : option string)
    (checkTime : Z) (w : world),
    (∀ r, fetch_failed r = true → (getTonLastTransactions r).1 = [])
    ∧ (∀ s : loop_state,
         i s ≤ timeInterval → stop_events s !! user_id = Some false →
         fetch_failed (answer (w (cycle_no s))) = true →
         body user_id "ton" address amount timeInterval memo checkTime w s =
           inr (next_state user_id address checkTime w s))
    ∧ (∀ (fuel : nat) (reg : registry),
         monitorTransactions user_id "ton" address amount timeInterval memo
           checkTime w fuel reg =
         monitorTransactions user_id "ton" address amount timeInterval memo
           checkTime (absorbed w) fuel reg)
    ∧ (∀ (fuel : nat) (reg : registry) (fin : final),
         monitorTransactions user_id "ton" address amount timeInterval memo
           checkTime w fuel reg = Some fin →
         ∃ b, result_of fin = Returned b).
Proof.
  intros user_id address amount timeInterval memo checkTime w.
  split; [exact failed_fetch_empty |]. split; [| split].
  - intros s Hi Hunset Hfail.
    rewrite body_running; try done.
    + unfold cycle_matches, page. by rewrite (failed_fetch_empty _ Hfail).
    + by rewrite (signal_for_present _ _ _ Hunset).
  - intros fuel reg. unfold monitorTransactions. by rewrite poll_absorbed.
  - intros fuel reg fin Hrun. by eapply poll_ton_returns.
Qed.

Lemma fetch_failure_is_an_empty_page_witness :
  fetch_failed ClientError = true
  ∧ (getTonLastTransactions ClientError).1 = []
  ∧ 0 ≤ 3600
  ∧ stop_events (start "user123" ∅) !! "user123" = Some false
  ∧ body "user123" "ton" "wallet_address" "10" 3600 None 5 Sample.outage
      (start "user123" ∅) =
    inr (next_state "user123" "wallet_address" 5 Sample.outage (start "user123" ∅))
  ∧ monitorTransactions "user123" "ton" "wallet_address" "10" 5 None 5
      Sample.outage 3 ∅ =
    Some (mk_final (Returned false) {["user123" := false]}
            [Fetch "wallet_address"; Sleep 5; Fetch "wallet_address"; Sleep 5])
  ∧ ∃ b, result_of (mk_final (Returned false) {["user123" := false]}
                      [Fetch "wallet_address"; Sleep 5; Fetch "wallet_address"; Sleep 5])
         = Returned b.
Proof.
  pose proof (fetch_failure_is_an_empty_page "user123" "wallet_address" "10" 3600 None 5
                Sample.outage) as (Hempty & Hpass & _ & _).
  pose proof (fetch_failure_is_an_empty_page "user123" "wallet_address" "10" 5 None 5
                Sample.outage) as (_ & _ & _ & Hreturns).
  assert (stop_events (start "user123" ∅) !! "user123" = Some false)
    as Hunset by (vm_compute; reflexivity).
  assert (monitorTransactions "user123" "ton" "wallet_address" "10" 5 None 5
            Sample.outage 3 ∅ =
          Some (mk_final (Returned false) {["user123" := false]}
                  [Fetch "wallet_address"; Sleep 5; Fetch "wallet_address"; Sleep 5]))
    as Hrun by (vm_compute; reflexivity).
  split; [reflexivity |]. split; [exact (Hempty ClientError eq_refl) |].
  split; [lia |]. split; [exact Hunset |].
  split; [apply (Hpass (start "user123" ∅)); [cbn; lia | exact Hunset | reflexivity] |].
  split; [exact Hrun |].
  exact (Hreturns 3%nat ∅ _ Hrun).
Defined.

(** ** C7 *)

(** C7.  The match test of the loop holds exactly when the transaction's
    amount is the expected string and the expected memo is absent or is the
    transaction's memo.  The [success] field plays no part, and amounts are
    compared as strings: ["1"] and ["1.0"] do not match each other. *)
Theorem matches_iff_amount_and_memo :
  (∀ (trx : Trx.t) (amount : string) (memo : option string),
     matches trx amount memo = true ↔
     Trx.amount trx = amount ∧
     (memo = None ∨ ∃ m, memo = Some m ∧ Trx.memo trx = JStr m))
  ∧ (∀ (address hash time success success' memo' : json) (amount' amount : string)
       (memo : option string),
       matches (Trx.mk address hash time success amount' memo') amount memo =
       matches (Trx.mk address hash time success' amount' memo') amount memo)
  ∧ (∀ (address hash time memo' : json),
       matches (Trx.mk address hash time (JBool false) "10" memo') "10" None = true)
  ∧ (∀ (address hash time success memo' : json) (memo : option string),
       matches (Trx.mk address hash time success "1" memo') "1.0" memo = false
       ∧ matches (Trx.mk address hash time success "1.0" memo') "1" memo = false).
Proof.
  split; [exact matches_spec |]. split; [done |]. split; [done |].
  intros. split; reflexivity.
Qed.

(** ** C8 *)

(** C8.  A call of [stop_monitoring] for a user before that user's session
    starts changes nothing: the session's first statement clears the signal,
    and from there the call runs, returns and leaves the registry as it would
    have without the earlier stop. *)
Theorem stop_before_start_is_forgotten :
  ∀ (user_id blockchain address amount : string) (timeInterval : Z)
    (memo : option string) (checkTime : Z) (w : world) (fuel : nat) (reg : registry),
    start user_id (stop_monitoring user_id reg) = start user_id reg
    ∧ stop_events (start user_id (stop_monitoring user_id reg)) !! user_id = Some false
    ∧ monitorTransactions user_id blockchain address amount timeInterval memo
        checkTime w fuel (stop_monitoring user_id reg) =
      monitorTransactions user_id blockchain address amount timeInterval memo
        checkTime w fuel reg.
Proof.
  intros user_id blockchain address amount timeInterval memo checkTime w fuel reg.
  assert (start user_id (stop_monitoring user_id reg) = start user_id reg) as Hstart.
  { unfold start. f_equal.
    by rewrite !clear_signal_insert, stop_monitoring_insert, insert_insert_eq. }
  split; [exact Hstart |]. split.
  - rewrite Hstart. cbn. by rewrite clear_signal_insert, lookup_insert_eq.
  - unfold monitorTransactions. by rewrite Hstart.
Qed.

(** ** C9 *)





(** ** C10 *)

(** C10, as stated, fails for a negative budget.  The loop is not entered:
    with [checkTime = 0], pages that never match and nobody cancelling, the
    call returns [False] at once instead of never returning; and with
    [timeInterval = -10] and [checkTime = 5] the call runs no cycle, which is
    more than [floor (timeInterval / checkTime) + 1 = -1]. *)
Lemma zero_poll_interval_returns_when_budget_negative :
  never_cancelled "user123" Sample.silence
  ∧ (∀ k, cycle_matches "10" None (Sample.silence k) = false)
  ∧ monitorTransactions "user123" "ton" "wallet_address" "10" (-1) None 0
      Sample.silence 1 ∅ =
    Some (mk_final (Returned false) {["user123" := false]} [])
  ∧ monitorTransactions "user123" "ton" "wallet_address" "10" (-10) None 5
      Sample.silence 1 ∅ =
    Some (mk_final (Returned false) {["user123" := false]} [])
  ∧ (-10) / 5 + 1 = -1
  ∧ ¬ (Z.of_nat (fetches []) ≤ (-10) / 5 + 1).
Proof.
  split; [intros k; split; apply not_elem_of_nil |].
  split; [intros k; reflexivity |].
  split; [vm_compute; reflexivity |]. split; [vm_compute; reflexivity |].
  split; [reflexivity |]. vm_compute. intros H. by apply H.
Qed.

(** C10, amended.  With [checkTime > 0] every call ends, whatever the
    requests answer and whatever the other coroutines do, after at most
    [floor (timeInterval / checkTime) + 1] poll cycles (none when that number
    is negative): no later pass finds the loop condition true, and no more
    fetches are issued.  With [checkTime <= 0], a budget of zero or more,
    pages that never match and nobody cancelling, the counter never exceeds
    [timeInterval]: after any number of cycles the session is again at the top
    of the loop, and the call does not return for any amount of fuel.  With a
    negative budget the loop is not entered, and the call returns [False] at
    once, without any effect, whatever [checkTime] is. *)
Theorem monitor_terminates_iff_poll_interval_positive :
  ∀ (user_id address amount : string) (timeInterval : Z) (memo : option string)
    (checkTime : Z) (w : world) (reg : registry),
    (0 < checkTime →
     (∀ fuel : nat, (Z.to_nat (timeInterval / checkTime + 1) < fuel)%nat →
        ∃ fin,
          monitorTransactions user_id "ton" address amount timeInterval memo
            checkTime w fuel reg = Some fin
          ∧ (fetches (trace_of fin) ≤ Z.to_nat (timeInterval / checkTime + 1))%nat)
     ∧ (∀ (n : nat) (s : loop_state),
          boundary user_id "ton" address amount timeInterval memo checkTime w
            n (start user_id reg) = Some s →
          i s ≤ timeInterval →
          (n < Z.to_nat (timeInterval / checkTime + 1))%nat))
    ∧ (checkTime ≤ 0 → 0 ≤ timeInterval → never_cancelled user_id w →
       (∀ k, cycle_matches amount memo (w k) = false) →
       (∀ fuel : nat,
          monitorTransactions user_id "ton" address amount timeInterval memo
            checkTime w fuel reg = None)
       ∧ (∀ n : nat, ∃ s,
            boundary user_id "ton" address amount timeInterval memo checkTime w
              n (start user_id reg) = Some s
            ∧ i s ≤ timeInterval))
    ∧ (timeInterval < 0 →
       ∀ fuel : nat,
         monitorTransactions user_id "ton" address amount timeInterval memo
           checkTime w (S fuel) reg =
         Some (mk_final (Returned false) (clear_signal user_id reg) [])).
Proof.
  intros user_id address amount timeInterval memo checkTime w reg.
  assert (stop_events (start user_id reg) !! user_id = Some false) as Hunset
    by (cbn; by rewrite clear_signal_insert, lookup_insert_eq).
  split; [| split].
  - intros Hct. split.
    + intros fuel Hfuel.
      destruct (poll_ends user_id "ton" address amount timeInterval memo checkTime w
                  (Z.to_nat (timeInterval / checkTime + 1)) (start user_id reg) fuel)
        as (fin & Hrun & Hcount); try done.
      * cbn [start i].
        pose proof (Z.mul_succ_div_gt timeInterval checkTime Hct).
        destruct (Z.le_gt_cases 0 (timeInterval / checkTime + 1)).
        -- rewrite Z2Nat.id by done. lia.
        -- replace (Z.to_nat (timeInterval / checkTime + 1)) with 0%nat by lia. nia.
      * exists fin. split; [done |]. cbn in Hcount. lia.
    + intros n s Hb Hi.
      apply boundary_trace in Hb as (_ & _ & _ & Hs). cbn [start i] in Hs.
      assert (Z.of_nat n ≤ timeInterval / checkTime)
        by (apply Z.div_le_lower_bound; lia).
      lia.
  - intros Hct Hti Hnever Hnone. split.
    + intros fuel. by apply poll_stuck.
    + intros n. by apply boundary_stuck.
  - intros Hti fuel. by apply negative_budget_returns_false.
Qed.

Lemma monitor_terminates_iff_poll_interval_positive_witness :
  (0 < 5 ∧ (Z.to_nat (10 / 5 + 1) < 4)%nat
   ∧ ∃ fin,
       monitorTransactions "user123" "ton" "wallet_address" "10" 10 None 5
         Sample.outage 4 ∅ = Some fin
       ∧ (fetches (trace_of fin) ≤ Z.to_nat (10 / 5 + 1))%nat)
  ∧ (0 ≤ 0 ∧ 0 ≤ 10 ∧ never_cancelled "user123" Sample.silence
     ∧ (∀ k, cycle_matches "10" None (Sample.silence k) = false)
     ∧ (∀ fuel : nat,
          monitorTransactions "user123" "ton" "wallet_address" "10" 10 None 0
            Sample.silence fuel ∅ = None))
  ∧ (-1 < 0
     ∧ monitorTransactions "user123" "ton" "wallet_address" "10" (-1) None 0
         Sample.silence 1 ∅ =
       Some (mk_final (Returned false) (clear_signal "user123" ∅) [])).
Proof.
  split; [| split].
  - assert ((Z.to_nat (10 / 5 + 1) < 4)%nat) as Hfuel by (vm_compute; lia).
    split; [lia |]. split; [exact Hfuel |].
    exact (proj1 (proj1 (monitor_terminates_iff_poll_interval_positive "user123"
                           "wallet_address" "10" 10 None 5 Sample.outage ∅)
                    ltac:(lia)) 4%nat Hfuel).
  - assert (never_cancelled "user123" Sample.silence) as Hnever
      by (intros k; split; apply not_elem_of_nil).
    assert (∀ k, cycle_matches "10" None (Sample.silence k) = false) as Hnone
      by (intros k; reflexivity).
    split; [lia |]. split; [lia |]. split; [exact Hnever |]. split; [exact Hnone |].
    exact (proj1 (proj1 (proj2 (monitor_terminates_iff_poll_interval_positive
                                  "user123" "wallet_address" "10" 10 None 0
                                  Sample.silence ∅))
                    ltac:(lia) ltac:(lia) Hnever Hnone)).
  - assert (-1 < 0) as Hneg by lia.
    split; [exact Hneg |].
    exact (proj2 (proj2 (monitor_terminates_iff_poll_interval_positive "user123"
                           "wallet_address" "10" (-1) None 0 Sample.silence ∅))
             Hneg 0%nat).
Defined.

(* ===================================================================== *)
(** * Further properties of the code *)
(* ===================================================================== *)

(** ** [convert_amount] on every integer *)

Lemma round_half_even_nonneg (num den : Z) :
  0 ≤ num → 0 < den → 0 ≤ F64.round_half_even num den.
Proof.
  intros Hn Hd. unfold F64.round_half_even.
  pose proof (Z.div_pos num den Hn Hd).
  repeat case_match; lia.
Qed.

Lemma rstrip_idem (c : ascii) (s : string) : rstrip c (rstrip c s) = rstrip c s.
Proof.
  induction s as [| a s IH]; [done |].
  rewrite rstrip_cons. destruct (rstrip c s) as [| x r] eqn:E.
  - destruct (Ascii.eqb a c) eqn:Ea; [done |].
    rewrite rstrip_cons. cbn [rstrip]. by rewrite Ea.
  - rewrite rstrip_cons, IH. done.
Qed.

(** A leading minus sign survives the stripping of zeros and points. *)
Lemma rstrip_minus (c : ascii) (s : string) :
  c ≠ "-"%char → rstrip c (String "-" s) = String "-" (rstrip c s).
Proof.
  intros Hc. rewrite rstrip_cons. destruct (rstrip c s); [| done].
  destruct (Ascii.eqb_spec "-" c); [by subst | done].
Qed.

Lemma format_fixed_units (x : F64.t) (prec : Z) :
  prec ≠ 0 →
  F64.format_fixed x prec =
  (if F64.sign x then "-" else "") +:+ fixed_point (printed_units x prec) prec.
Proof.
  intros Hp. unfold F64.format_fixed, fixed_point, printed_units.
  destruct (Z.eqb_spec prec 0); [done |]. done.
Qed.

(** The quotient of a non-zero amount: its sign is the amount's, and only
    its size can make the division fail. *)
Lemma true_div_cases (a b : Z) :
  a ≠ 0 → 0 < b →
  let e := F64.ulp_exponent (Z.abs a) b in
  let m := if 0 <=? e then F64.round_half_even (Z.abs a) (b * 2 ^ e)
           else F64.round_half_even (Z.abs a * 2 ^ (- e)) b in
  0 ≤ m ∧
  F64.true_div a b =
    if (971 <? e) || ((e =? 971) && (2 ^ 53 <=? m)) then Raise OverflowError
    else Ok (F64.mk (a <? 0) m e).
Proof.
  intros Ha Hb e m. split.
  - subst m. destruct (0 <=? e) eqn:He.
    + apply round_half_even_nonneg; [lia |].
      apply Z.mul_pos_pos; [done |]. apply Z.pow_pos_nonneg; lia.
    + apply round_half_even_nonneg; [| done].
      apply Z.mul_nonneg_nonneg; [lia |]. apply Z.pow_nonneg. lia.
  - unfold F64.true_div.
    destruct (Z.eqb_spec b 0); [lia |]. destruct (Z.eqb_spec a 0); [lia |].
    destruct (Z.ltb_spec b 0); [lia |].
    rewrite xorb_false_r, (Z.abs_eq b) by lia. done.
Qed.

Lemma printed_units_nonneg (sign : bool) (m e prec : Z) :
  0 ≤ m → 0 ≤ prec → 0 ≤ printed_units (F64.mk sign m e) prec.
Proof.
  intros Hm Hp. unfold printed_units. cbn [F64.mant F64.expo].
  assert (0 < 10 ^ prec) by (apply Z.pow_pos_nonneg; lia).
  destruct (Z.leb_spec 0 e).
  - assert (0 < 2 ^ e) by (apply Z.pow_pos_nonneg; lia). nia.
  - apply round_half_even_nonneg; [nia |]. apply Z.pow_pos_nonneg; lia.
Qed.

(** What [convert_amount] returns when it returns. *)
Lemma convert_amount_ok (amount : Z) (blockchain s : string) :
  convert_amount amount blockchain = Ok s →
  ∃ decimals, decimals_map !! lower blockchain = Some decimals ∧
    ((amount = 0 ∧ s = "0") ∨
     (amount ≠ 0 ∧ ∃ units, 0 ≤ units ∧
        s = (if amount <? 0 then "-" else "") +:+ shortest_decimal units decimals)).
Proof.
  unfold convert_amount. destruct (decimals_map !! lower blockchain) as [d |] eqn:Hmap;
    [| done].
  intros Hs. exists d. split; [done |].
  destruct (Z.eqb_spec amount 0) as [-> | Hnz]; [left; by injection Hs as <- |].
  right. split; [done |].
  assert (0 < d) as Hd
    by (destruct (decimals_map_cases _ _ Hmap) as [-> | [-> | ->]]; lia).
  assert (0 < 10 ^ d) as Hp by (apply Z.pow_pos_nonneg; lia).
  destruct (true_div_cases amount (10 ^ d) Hnz Hp) as [Hm Hdiv].
  set (e := F64.ulp_exponent (Z.abs amount) (10 ^ d)) in *.
  set (m := if 0 <=? e then _ else _) in *.
  rewrite Hdiv in Hs. destruct (_ || _); [done |].
  cbn [mbind result_bind] in Hs. injection Hs as <-.
  exists (printed_units (F64.mk (amount <? 0) m e) d).
  split; [apply printed_units_nonneg; lia |].
  rewrite format_fixed_units by lia. cbn [F64.sign].
  destruct (amount <? 0); [| done].
  change ("-" +:+ ?x) with (String "-" x).
  by rewrite !rstrip_minus.
Qed.

Lemma ulp_exponent_upper (a b : Z) :
  0 < a → 0 < b → F64.ulp_exponent a b ≤ Z.max (Z.log2 a - 52) (-1074).
Proof.
  intros Ha Hb. unfold F64.ulp_exponent.
  pose proof (Z.log2_nonneg b).
  set (k := Z.log2 a - Z.log2 b).
  destruct (if 0 <=? k then _ else _); lia.
Qed.

(** X1.  [convert_amount] raises [ValueError] exactly when the ledger, in
    lower case, is not a key of the table, whatever the amount (0 included:
    the table is consulted first).  The only other exception is the
    [OverflowError] of the division, and no amount below [2^1000] in absolute
    value meets it. *)
Theorem convert_amount_errors :
  ∀ (amount : Z) (blockchain : string),
    (convert_amount amount blockchain = Raise ValueError ↔
     decimals_map !! lower blockchain = None)
    ∧ (∀ e, convert_amount amount blockchain = Raise e →
         e = ValueError ∨ e = OverflowError)
    ∧ (decimals_map !! lower blockchain ≠ None → Z.abs amount < 2 ^ 1000 →
       ∃ s, convert_amount amount blockchain = Ok s).
Proof.
  intros amount blockchain. unfold convert_amount.
  destruct (decimals_map !! lower blockchain) as [d |] eqn:Hmap.
  2: { split; [done |]. split; [intros e [= <-]; by left | done]. }
  destruct (Z.eqb_spec amount 0) as [-> | Hnz].
  { split; [done |]. split; [done |]. intros _ _. by eexists. }
  assert (0 < d) as Hd
    by (destruct (decimals_map_cases _ _ Hmap) as [-> | [-> | ->]]; lia).
  assert (0 < 10 ^ d) as Hp by (apply Z.pow_pos_nonneg; lia).
  destruct (true_div_cases amount (10 ^ d) Hnz Hp) as [Hm Hdiv].
  set (e := F64.ulp_exponent (Z.abs amount) (10 ^ d)) in *.
  set (m := if 0 <=? e then _ else _) in *.
  rewrite Hdiv. split; [| split].
  - by destruct (_ || _).
  - intros e'. destruct (_ || _); [intros [= <-]; by right | done].
  - intros _ Hsmall.
    pose proof (ulp_exponent_upper (Z.abs amount) (10 ^ d) ltac:(lia) Hp) as He.
    fold e in He.
    assert (Z.log2 (Z.abs amount) < 1000) by (apply Z.log2_lt_pow2; lia).
    destruct (Z.ltb_spec 971 e); [lia |]. destruct (Z.eqb_spec e 971); [lia |].
    by eexists.
Qed.

Lemma convert_amount_errors_witness :
  decimals_map !! lower "Doge" ≠ None ∧ Z.abs (-42) < 2 ^ 1000
  ∧ ∃ s, convert_amount (-42) "Doge" = Ok s.
Proof.
  assert (decimals_map !! lower "Doge" ≠ None) as Hmap by (vm_compute; discriminate).
  assert (Z.abs (-42) < 2 ^ 1000) as Hsmall by (vm_compute; reflexivity).
  split; [exact Hmap |]. split; [exact Hsmall |].
  exact (proj2 (proj2 (convert_amount_errors (-42) "Doge")) Hmap Hsmall).
Defined.

(** X2.  A negative amount is printed as a minus sign followed by what the
    same positive amount prints (and fails when that one fails). *)
Theorem convert_amount_of_negative :
  ∀ (amount : Z) (blockchain : string),
    0 < amount →
    convert_amount (- amount) blockchain =
    match convert_amount amount blockchain with
    | Ok s => Ok ("-" +:+ s)
    | Raise e => Raise e
    end.
Proof.
  intros amount blockchain Hpos. unfold convert_amount.
  destruct (decimals_map !! lower blockchain) as [d |] eqn:Hmap; [| done].
  destruct (Z.eqb_spec (- amount) 0); [lia |].
  destruct (Z.eqb_spec amount 0); [lia |].
  assert (0 < d) as Hd
    by (destruct (decimals_map_cases _ _ Hmap) as [-> | [-> | ->]]; lia).
  assert (0 < 10 ^ d) as Hp by (apply Z.pow_pos_nonneg; lia).
  destruct (true_div_cases amount (10 ^ d) ltac:(lia) Hp) as [_ Hdiv].
  destruct (true_div_cases (- amount) (10 ^ d) ltac:(lia) Hp) as [_ Hdiv'].
  rewrite Z.abs_opp in Hdiv'. rewrite Hdiv, Hdiv'.
  destruct (_ || _); [done |]. cbn [mbind result_bind].
  rewrite !format_fixed_units by lia. cbn [F64.sign].
  destruct (Z.ltb_spec (- amount) 0); [| lia].
  destruct (Z.ltb_spec amount 0); [lia |].
  change ("-" +:+ ?x) with (String "-" x). rewrite !rstrip_minus by done.
  rewrite !string_app_nil_l. done.
Qed.

Lemma convert_amount_of_negative_witness :
  0 < 1500000000
  ∧ convert_amount (- 1500000000) "ton" =
    match convert_amount 1500000000 "ton" with
    | Ok s => Ok ("-" +:+ s)
    | Raise e => Raise e
    end
  ∧ convert_amount (- 1500000000) "ton" = Ok "-1.5".
Proof.
  split; [lia |]. split; [| vm_compute; reflexivity].
  exact (convert_amount_of_negative 1500000000 "ton" ltac:(lia)).
Defined.

(** ** The printed string *)

Lemma has_point_app (a b : string) :
  has_point (a +:+ b) = has_point a || has_point b.
Proof.
  induction a as [| c a IH]; [done |].
  rewrite string_app_cons. cbn [has_point]. rewrite IH. by rewrite orb_assoc.
Qed.

Lemma has_point_uint (d : Decimal.uint) :
  has_point (NilEmpty.string_of_uint d) = false.
Proof.
  induction d as [| d IH | d IH | d IH | d IH | d IH | d IH | d IH | d IH | d IH | d IH];
    cbn [NilEmpty.string_of_uint has_point]; [done | ..]; by rewrite IH.
Qed.

Lemma has_point_digits (n : Z) : has_point (str_of_nonneg n) = false.
Proof.
  unfold str_of_nonneg, NilZero.string_of_uint.
  destruct (N.to_uint (Z.to_N n)); [done | ..]; apply has_point_uint.
Qed.

Lemma str_of_nonneg_first (n : Z) :
  ∃ c r, str_of_nonneg n = String c r ∧ c ≠ "-"%char ∧ c ≠ "."%char.
Proof.
  unfold str_of_nonneg, NilZero.string_of_uint.
  destruct (N.to_uint (Z.to_N n)); cbn [NilEmpty.string_of_uint];
    eexists _, _; (split; [reflexivity | split; discriminate]).
Qed.

Lemma str_of_nonneg_inj (n n' : Z) :
  0 ≤ n → 0 ≤ n' → str_of_nonneg n = str_of_nonneg n' → n = n'.
Proof.
  intros Hn Hn' E. unfold str_of_nonneg in E.
  assert (∀ x : N, N.to_uint x ≠ Decimal.Nil) as Hnn.
  { intros [| p]; [discriminate | apply DecimalPos.Unsigned.to_uint_nonnil]. }
  apply (f_equal NilZero.uint_of_string) in E.
  rewrite !NilZero.usu in E by apply Hnn. injection E as E.
  apply DecimalN.Unsigned.to_uint_inj in E. lia.
Qed.

(** The last digit of a block that was stripped of its zeros stays. *)
Lemma rstrip_zero_block (w : nat) (r : Z) :
  r mod 10 ≠ 0 →
  rstrip "0" (pad_digits (S w) r "") = pad_digits (S w) r "".
Proof.
  intros Hlast. rewrite pad_digits_snoc, rstrip_app, rstrip_cons. cbn [rstrip].
  destruct (digit_char_cases (r mod 10) (Z.mod_pos_bound r 10 ltac:(lia))) as [_ Hz].
  destruct (Ascii.eqb_spec (digit_char (r mod 10)) "0") as [E | E]; [| done].
  by apply Hz in E.
Qed.

Lemma pad_digits_nonempty (w : nat) (r : Z) :
  ∃ c s, pad_digits (S w) r "" = String c s.
Proof.
  rewrite pad_digits_snoc. destruct (pad_digits w (r / 10) ""); by eexists _, _.
Qed.

(** Whatever the amount, the returned string is left as it is by another
    round of stripping. *)
Lemma convert_amount_canonical_form (amount : Z) (blockchain s : string) :
  convert_amount amount blockchain = Ok s →
  s ≠ ""
  ∧ ((∃ t, s = String "-" t) ↔ amount < 0)
  ∧ rstrip "." s = s
  ∧ (has_point s = true → rstrip "0" s = s).
Proof.
  intros Hs.
  destruct (convert_amount_ok _ _ _ Hs) as (d & Hmap & [[-> ->] | (Hnz & units & Hu & ->)]).
  { split; [done |]. split; [| done]. split; [by intros [t ?] | lia]. }
  assert (0 < d) as Hd
    by (destruct (decimals_map_cases _ _ Hmap) as [-> | [-> | ->]]; lia).
  destruct (shortest_decimal_shape units d Hu ltac:(lia))
    as (w' & r' & _ & _ & _ & Hlast & ->).
  destruct (str_of_nonneg_first (units / 10 ^ d)) as (c & r & Hint & Hc & Hc').
  set (frac := match w' with 0%nat => "" | S _ => String "." (pad_digits w' r' "") end).
  assert (rstrip "." frac = frac ∧ rstrip "0" frac = frac ∨ frac = "") as Hfrac.
  { subst frac. destruct w' as [| w']; [by right | left].
    destruct Hlast as [? | Hlast]; [done |].
    destruct (pad_digits_nonempty w' r') as (x & t & E).
    pose proof (rstrip_point_pad (S w') r') as Hp.
    pose proof (rstrip_zero_block w' r' Hlast) as Hz.
    rewrite !rstrip_cons, Hp, Hz, E. done. }
  assert (has_point frac = true → frac ≠ "") as Hne by (by intros H ->).
  assert (∀ x : ascii, x = "."%char ∨ x = "0"%char →
            (x = "0"%char → frac ≠ "") →
            rstrip x (str_of_nonneg (units / 10 ^ d) +:+ frac) =
            str_of_nonneg (units / 10 ^ d) +:+ frac) as Hstrip.
  { intros x Hx Hzero. rewrite rstrip_app.
    destruct Hfrac as [[Hp Hz] | ->].
    - assert (rstrip x frac = frac) as -> by (by destruct Hx as [-> | ->]).
      destruct frac eqn:E; [| done].
      destruct Hx as [-> | ->]; [| by destruct Hzero].
      rewrite string_app_nil_r. unfold str_of_nonneg. apply rstrip_point_digits.
    - destruct Hx as [-> | ->]; [| by destruct Hzero].
      cbn [rstrip]. rewrite string_app_nil_r. unfold str_of_nonneg.
      apply rstrip_point_digits. }
  assert (has_point (str_of_nonneg (units / 10 ^ d) +:+ frac) = has_point frac)
    as Hpt by (by rewrite has_point_app, has_point_digits).
  destruct (Z.ltb_spec amount 0) as [Hneg | Hpos].
  - change ("-" +:+ ?x) with (String "-" x). split; [done |].
    split; [split; [done | by eexists] |].
    rewrite !rstrip_minus by done. split.
    + f_equal. apply Hstrip; [by left | done].
    + cbn [has_point]. rewrite Hpt. intros H. f_equal.
      apply Hstrip; [by right | intros _; by apply Hne].
  - rewrite string_app_nil_l. split; [by rewrite Hint |].
    split; [split; [| lia] |].
    { intros [t Ht]. rewrite Hint, string_app_cons in Ht. congruence. }
    split.
    + apply Hstrip; [by left | done].
    + rewrite Hpt. intros H. apply Hstrip; [by right | intros _; by apply Hne].
Qed.

(** X3.  Whatever the amount, the string [convert_amount] returns is in
    canonical form.  It is not empty and starts with a minus sign exactly
    when the amount is negative.  When it holds a point, the last step of the
    function, [.rstrip('0').rstrip('.')], applied once more leaves it as it
    is, so that it ends with a digit other than 0; when it holds no point it
    does not end with one, and its trailing zeros are digits of the integer
    part. *)
Theorem convert_amount_is_canonical :
  ∀ (amount : Z) (blockchain s : string),
    convert_amount amount blockchain = Ok s →
    s ≠ ""
    ∧ ((∃ t, s = String "-" t) ↔ amount < 0)
    ∧ (if has_point s then rstrip "." (rstrip "0" s) = s else rstrip "." s = s).
Proof.
  intros amount blockchain s Hs.
  destruct (convert_amount_canonical_form _ _ _ Hs) as (Hne & Hsign & Hp & Hz).
  split; [exact Hne |]. split; [exact Hsign |].
  destruct (has_point s); [| exact Hp].
  rewrite Hz by done. exact Hp.
Qed.

Lemma convert_amount_is_canonical_witness :
  convert_amount 1500000000 "ton" = Ok "1.5"
  ∧ "1.5" ≠ ""
  ∧ rstrip "." (rstrip "0" "1.5") = "1.5".
Proof.
  assert (convert_amount 1500000000 "ton" = Ok "1.5") as Hs
    by (vm_compute; reflexivity).
  destruct (convert_amount_is_canonical _ _ _ Hs) as (H1 & _ & H3).
  split; [exact Hs |]. split; [exact H1 | exact H3].
Defined.

Lemma length_append (a b : string) :
  String.length (a +:+ b) = (String.length a + String.length b)%nat.
Proof.
  induction a as [| c a IH]; [done |].
  rewrite string_app_cons. cbn [String.length]. by rewrite IH.
Qed.

Lemma pad_digits_length (w : nat) (r : Z) : String.length (pad_digits w r "") = w.
Proof.
  revert r. induction w as [| w IH]; intros r; [done |].
  rewrite pad_digits_snoc, length_append, IH. cbn. lia.
Qed.

Lemma app_snoc_inj (a a' : string) (c c' : ascii) :
  a +:+ String c "" = a' +:+ String c' "" → a = a' ∧ c = c'.
Proof.
  revert a'. induction a as [| x a IH]; intros [| x' a'];
    rewrite ?string_app_cons, ?string_app_nil_l; intros E.
  - by injection E as ->.
  - injection E as -> E. by destruct a'.
  - injection E as -> E. by destruct a.
  - injection E as -> E. apply IH in E as [-> ->]. done.
Qed.

Lemma digit_char_inj (x y : Z) :
  0 ≤ x < 10 → 0 ≤ y < 10 → digit_char x = digit_char y → x = y.
Proof.
  intros Hx Hy E. unfold digit_char in E.
  apply (f_equal N_of_ascii) in E.
  rewrite !N_ascii_embedding in E by lia. lia.
Qed.

Lemma pad_digits_inj (w : nat) (r r' : Z) :
  0 ≤ r < 10 ^ Z.of_nat w → 0 ≤ r' < 10 ^ Z.of_nat w →
  pad_digits w r "" = pad_digits w r' "" → r = r'.
Proof.
  revert r r'. induction w as [| w IH]; intros r r' Hr Hr' E.
  - cbn in Hr, Hr'. lia.
  - rewrite Nat2Z.inj_succ, Z.pow_succ_r in Hr, Hr' by lia.
    rewrite !pad_digits_snoc in E. apply app_snoc_inj in E as [E1 E2].
    apply digit_char_inj in E2; [| by apply Z.mod_pos_bound ..].
    assert (∀ x, 0 ≤ x < 10 * 10 ^ Z.of_nat w → 0 ≤ x / 10 < 10 ^ Z.of_nat w)
      as Hdiv.
    { intros x Hx. split; [apply Z.div_pos; lia |].
      apply Z.div_lt_upper_bound; lia. }
    apply IH in E1; [| by apply Hdiv ..].
    rewrite (Z.div_mod r 10), (Z.div_mod r' 10) by lia. lia.
Qed.

(** An integer part and a fraction can be read off their concatenation. *)
Lemma point_split (a a' frac frac' : string) :
  has_point a = false → has_point a' = false →
  (frac = "" ∨ ∃ f, frac = String "." f) →
  (frac' = "" ∨ ∃ f, frac' = String "." f) →
  a +:+ frac = a' +:+ frac' → a = a' ∧ frac = frac'.
Proof.
  revert a'. induction a as [| c a IH]; intros [| c' a'] Ha Ha' Hf Hf';
    rewrite ?string_app_cons, ?string_app_nil_l; intros E.
  - done.
  - cbn [has_point] in Ha'. apply orb_false_elim in Ha' as [Hc' _].
    destruct Hf as [-> | [f ->]]; [done |]. injection E as <- _. done.
  - cbn [has_point] in Ha. apply orb_false_elim in Ha as [Hc _].
    destruct Hf' as [-> | [f ->]]; [done |]. injection E as -> _. done.
  - cbn [has_point] in Ha, Ha'.
    apply orb_false_elim in Ha as [_ Ha]. apply orb_false_elim in Ha' as [_ Ha'].
    injection E as -> E. destruct (IH a' Ha Ha' Hf Hf' E) as [-> ->]. done.
Qed.

Lemma shortest_decimal_inj (n n' d : Z) :
  0 ≤ n → 0 ≤ n' → 0 ≤ d → shortest_decimal n d = shortest_decimal n' d → n = n'.
Proof.
  intros Hn Hn' Hd E.
  assert (0 < 10 ^ d) as Hp by (apply Z.pow_pos_nonneg; lia).
  destruct (shortest_decimal_shape n d Hn Hd) as (w1 & r1 & _ & Hv1 & Hr1 & _ & E1).
  destruct (shortest_decimal_shape n' d Hn' Hd) as (w2 & r2 & _ & Hv2 & Hr2 & _ & E2).
  rewrite E1, E2 in E.
  apply point_split in E as [Eint Efrac]; try apply has_point_digits.
  2, 3: destruct w1, w2; eauto.
  apply str_of_nonneg_inj in Eint; [| by apply Z.div_pos ..].
  assert (n mod 10 ^ d = n' mod 10 ^ d) as Emod.
  { rewrite Hv1, Hv2. destruct w1 as [| w1], w2 as [| w2]; try done.
    - cbn in Hr1, Hr2. replace r1 with 0 by lia. replace r2 with 0 by lia. done.
    - assert (pad_digits (S w1) r1 "" = pad_digits (S w2) r2 "") as Epad
        by congruence.
      assert (w1 = w2) as <-.
      { apply (f_equal String.length) in Epad.
        rewrite !pad_digits_length in Epad. lia. }
      apply pad_digits_inj in Epad as <-; done. }
  rewrite (Z.div_mod n (10 ^ d)), (Z.div_mod n' (10 ^ d)) by lia. lia.
Qed.

Lemma shortest_decimal_zero (d : Z) : 0 ≤ d → shortest_decimal 0 d = "0".
Proof.
  intros Hd.
  assert (0 < 10 ^ d) as Hp by (apply Z.pow_pos_nonneg; lia).
  destruct (shortest_decimal_shape 0 d ltac:(lia) Hd)
    as (w & r & Hw & Hv & Hr & Hl & ->).
  rewrite Z.mod_0_l in Hv by lia. rewrite Z.div_0_l by lia.
  pose proof (Z.pow_pos_nonneg 10 (d - Z.of_nat w) ltac:(lia) ltac:(lia)).
  assert (r = 0) as -> by nia.
  destruct Hl as [-> | Hl]; done.
Qed.

(** X4.  Below [2^52] the printed string determines the amount: two different
    amounts of the same ledger never print alike, and only the amount 0
    prints as ["0"].  Comparing printed strings, as [monitorTransactions]
    does, is comparing amounts. *)
Theorem convert_amount_is_injective_below_2_52 :
  ∀ (blockchain : string) (amount amount' : Z),
    decimals_map !! lower blockchain ≠ None →
    0 ≤ amount < 2 ^ 52 → 0 ≤ amount' < 2 ^ 52 →
    convert_amount amount blockchain = convert_amount amount' blockchain →
    amount = amount'.
Proof.
  intros blockchain amount amount' Hmap Ha Ha' E.
  destruct (decimals_map !! lower blockchain) as [d |] eqn:Hd; [| done].
  assert (0 < d) as Hpos
    by (destruct (decimals_map_cases _ _ Hd) as [-> | [-> | ->]]; lia).
  assert (∀ a, 0 ≤ a < 2 ^ 52 →
            convert_amount a blockchain = Ok (shortest_decimal a d)) as Hconv.
  { intros a Hr. rewrite (convert_amount_below_2_52 a blockchain d Hd Hr).
    destruct (Z.eqb_spec a 0) as [-> |]; [| done].
    by rewrite shortest_decimal_zero by lia. }
  rewrite !Hconv in E by done. injection E as E.
  apply shortest_decimal_inj in E; lia.
Qed.

Lemma convert_amount_is_injective_below_2_52_witness :
  decimals_map !! lower "ton" ≠ None
  ∧ 0 ≤ 1500000000 < 2 ^ 52
  ∧ convert_amount 1500000000 "ton" = convert_amount 1500000000 "ton"
  ∧ 1500000000 = 1500000000.
Proof.
  assert (decimals_map !! lower "ton" ≠ None) as Hmap by (vm_compute; discriminate).
  assert (0 ≤ 1500000000 < 2 ^ 52) as Hr by lia.
  split; [exact Hmap |]. split; [exact Hr |]. split; [reflexivity |].
  exact (convert_amount_is_injective_below_2_52 "ton" 1500000000 1500000000
           Hmap Hr Hr eq_refl).
Defined.

(** ** The page [getTonLastTransactions] returns *)

Lemma parse_page_prepare (data : json) :
  parse_page data =
  match prepare data with
  | Raise e => ([], Raise e)
  | Ok (addresses, trxs) => collect addresses trxs [] []
  end.
Proof. reflexivity. Qed.

Lemma collect_fate (addresses : list (json * json)) (trx : json) (rest : list json)
    (info : list Trx.t) (log : list log_entry) :
  collect addresses (trx :: rest) info log =
  match fate_of addresses trx with
  | Parsed entry => collect addresses rest (info ++ [entry]) log
  | Skipped => collect addresses rest info (log ++ [Warning KeyError])
  | Fatal e => (log, Raise e)
  end.
Proof.
  cbn [collect]. unfold fate_of. destruct (read_memo trx) as [memo | e]; [| done].
  by destruct (build_entry addresses trx memo) as [entry | []].
Qed.

Lemma collect_all_good (addresses : list (json * json)) (trxs : list json)
    (info : list Trx.t) (log : list log_entry) :
  Forall (λ trx, is_fatal (fate_of addresses trx) = false) trxs →
  collect addresses trxs info log =
    (log ++ replicate (skipped_of addresses trxs) (Warning KeyError),
     Ok (info ++ parsed_of addresses trxs)).
Proof.
  intros Hall. revert info log.
  induction Hall as [| trx rest Hgood _ IH]; intros info log.
  - cbn. by rewrite !app_nil_r.
  - rewrite collect_fate. unfold parsed_of, skipped_of in *. cbn [omap list_omap List.filter].
    destruct (fate_of addresses trx) as [entry | | e]; [| | done]; rewrite IH.
    + by rewrite <- app_assoc.
    + cbn [length replicate]. by rewrite <- app_assoc.
Qed.

Lemma collect_some_fatal (addresses : list (json * json)) (trxs : list json)
    (info : list Trx.t) (log : list log_entry) :
  Exists (λ trx, is_fatal (fate_of addresses trx) = true) trxs →
  ∃ log' e, collect addresses trxs info log = (log', Raise e).
Proof.
  revert info log. induction trxs as [| trx rest IH]; intros info log Hex.
  - by apply Exists_nil in Hex.
  - rewrite collect_fate. apply Exists_cons in Hex as [Hnow | Hlater].
    + destruct (fate_of addresses trx); try done. by eexists _, _.
    + destruct (fate_of addresses trx); [by apply IH | by apply IH | by eexists _, _].
Qed.

Lemma collect_entries (addresses : list (json * json)) (trxs : list json)
    (info info' : list Trx.t) (log log' : list log_entry) (entry : Trx.t) :
  collect addresses trxs info log = (log', Ok info') → entry ∈ info' →
  entry ∈ info ∨
  ∃ trx memo, trx ∈ trxs ∧ read_memo trx = Ok memo ∧
              build_entry addresses trx memo = Ok entry.
Proof.
  revert info log. induction trxs as [| trx rest IH]; intros info log Hrun Hin.
  - injection Hrun as _ <-. by left.
  - cbn [collect] in Hrun.
    destruct (read_memo trx) as [memo | e] eqn:Hmemo; [| done].
    destruct (build_entry addresses trx memo) as [built | e] eqn:Hbuild.
    + destruct (IH _ _ Hrun Hin) as [Hold | (t & m & Ht & ? & ?)].
      * apply elem_of_app in Hold as [? | Hnew]; [by left |].
        apply list_elem_of_singleton in Hnew as ->. right.
        exists trx, memo. split; [by left | done].
      * right. exists t, m. split; [by right | done].
    + destruct e; try done.
      destruct (IH _ _ Hrun Hin) as [? | (t & m & Ht & ? & ?)]; [by left |].
      right. exists t, m. split; [by right | done].
Qed.

(** Every entry of a returned page was built from a record of the response. *)
Lemma page_entries (r : response) (entry : Trx.t) :
  entry ∈ (getTonLastTransactions r).1 →
  ∃ addresses trx memo,
    read_memo trx = Ok memo ∧ build_entry addresses trx memo = Ok entry.
Proof.
  destruct r as [| | | data]; cbn; try (intros Hin; by apply not_elem_of_nil in Hin).
  rewrite parse_page_prepare.
  destruct (prepare data) as [[addresses trxs] | e];
    [| intros Hin; by apply not_elem_of_nil in Hin].
  destruct (collect addresses trxs [] []) as [log [info | e]] eqn:Hrun;
    [| intros Hin; by apply not_elem_of_nil in Hin].
  cbn. intros Hin.
  destruct (collect_entries _ _ _ _ _ _ _ Hrun Hin) as [Hnil | (trx & memo & _ & ? & ?)].
  - by apply not_elem_of_nil in Hnil.
  - by exists addresses, trx, memo.
Qed.

Lemma getitem_get (v : json) (k : string) (default x : json) :
  getitem v k = Ok x → get v k default = Ok x.
Proof.
  destruct v; try done. cbn. by destruct (assoc k fields).
Qed.

Local Ltac bind_ok H :=
  repeat match type of H with
         | mbind _ ?r = Ok _ =>
             let E := fresh "E" in
             destruct r eqn:E; cbn [mbind result_bind] in H; [| discriminate H]
         end.

(** The memo of a record is [None] or a comment that counts as true. *)
Lemma read_memo_truthy (trx memo : json) :
  read_memo trx = Ok memo → memo = JNull ∨ truthy memo = true.
Proof.
  unfold read_memo. intros H. bind_ok H.
  destruct (truthy a1); [| injection H as <-; by left].
  bind_ok H. destruct (truthy a3) eqn:Htrue; [| injection H as <-; by left].
  bind_ok H. right.
  apply (getitem_get _ _ JNull) in H. congruence.
Qed.

Lemma build_entry_fields (addresses : list (json * json)) (trx memo : json)
    (entry : Trx.t) :
  build_entry addresses trx memo = Ok entry →
  Trx.memo entry = memo ∧
  ∃ raw, convert_amount raw "ton" = Ok (Trx.amount entry).
Proof.
  unfold build_entry. intros H. bind_ok H. injection H as <-.
  split; [done |]. by eexists.
Qed.

Lemma length_parsed_of (addresses : list (json * json)) (trxs : list json) :
  (length (parsed_of addresses trxs) ≤ length trxs)%nat.
Proof.
  unfold parsed_of. induction trxs as [| trx rest IH]; [done |].
  cbn. destruct (fate_of addresses trx); cbn; lia.
Qed.

(** X5.  Once the address book and the list of transactions are read, each
    record is parsed, skipped or fatal.  When no record of the page is fatal
    the function returns the entries of the parsed records, in the order of
    the page, and logs one warning per skipped record; when some record is
    fatal it returns the empty list, with the error logged last.  When the
    address book or the list cannot be read it returns the empty list too.
    It never returns more entries than the page has records. *)
Theorem page_is_parsed_record_by_record_or_dropped :
  ∀ data : json,
    match prepare data with
    | Raise _ => getTonLastTransactions (Body data) = ([], [FetchError])
    | Ok (addresses, trxs) =>
        (Forall (λ trx, is_fatal (fate_of addresses trx) = false) trxs →
         getTonLastTransactions (Body data) =
           (parsed_of addresses trxs,
            replicate (skipped_of addresses trxs) (Warning KeyError)))
        ∧ (Exists (λ trx, is_fatal (fate_of addresses trx) = true) trxs →
           ∃ log, getTonLastTransactions (Body data) = ([], log ++ [FetchError]))
        ∧ (length (getTonLastTransactions (Body data)).1 ≤ length trxs)%nat
    end.
Proof.
  intros data. cbn [getTonLastTransactions]. rewrite parse_page_prepare.
  destruct (prepare data) as [[addresses trxs] | e]; [| done].
  assert (Forall (λ trx, is_fatal (fate_of addresses trx) = false) trxs →
          collect addresses trxs [] [] =
            (replicate (skipped_of addresses trxs) (Warning KeyError),
             Ok (parsed_of addresses trxs))) as Hgood
    by (intros Hall; by rewrite collect_all_good).
  split; [| split].
  - intros Hall. by rewrite Hgood.
  - intros Hex.
    destruct (collect_some_fatal addresses trxs [] [] Hex) as (log & e & ->).
    by exists log.
  - destruct (decide (Forall (λ trx, is_fatal (fate_of addresses trx) = false) trxs))
      as [Hall | Hex].
    + rewrite Hgood by done. apply length_parsed_of.
    + apply not_Forall_Exists in Hex; [| apply _].
      assert (Exists (λ trx, is_fatal (fate_of addresses trx) = true) trxs) as Hex'.
      { eapply Exists_impl; [exact Hex |]. intros trx. cbn.
        by destruct (is_fatal _). }
      destruct (collect_some_fatal addresses trxs [] [] Hex') as (log & e & ->).
      cbn. lia.
Qed.

Lemma page_is_parsed_record_by_record_or_dropped_witness :
  prepare (Sample.page_of [Sample.good; Sample.no_hash]) =
    Ok ([(JStr "0:abc", JStr "EQabc")], [Sample.good; Sample.no_hash])
  ∧ Forall (λ trx, is_fatal (fate_of [(JStr "0:abc", JStr "EQabc")] trx) = false)
      [Sample.good; Sample.no_hash]
  ∧ getTonLastTransactions (Body (Sample.page_of [Sample.good; Sample.no_hash])) =
    (parsed_of [(JStr "0:abc", JStr "EQabc")] [Sample.good; Sample.no_hash],
     replicate (skipped_of [(JStr "0:abc", JStr "EQabc")]
                  [Sample.good; Sample.no_hash]) (Warning KeyError))
  ∧ parsed_of [(JStr "0:abc", JStr "EQabc")] [Sample.good; Sample.no_hash] =
    [Sample.parsed_good].
Proof.
  assert (Forall (λ trx, is_fatal (fate_of [(JStr "0:abc", JStr "EQabc")] trx) = false)
            [Sample.good; Sample.no_hash]) as Hall
    by (repeat constructor).
  pose proof (page_is_parsed_record_by_record_or_dropped
                (Sample.page_of [Sample.good; Sample.no_hash])) as H.
  change (prepare (Sample.page_of [Sample.good; Sample.no_hash]))
    with (Ok ([(JStr "0:abc", JStr "EQabc")], [Sample.good; Sample.no_hash])
          : result (list (json * json) * list json)) in H.
  destruct H as (Hgood & _ & _).
  split; [reflexivity |]. split; [exact Hall |]. split; [exact (Hgood Hall) |].
  vm_compute. reflexivity.
Defined.

(** X6.  Every entry of a returned page has a memo that is [None] or counts
    as true (never the empty string), and an amount that [convert_amount]
    printed for the ledger ['ton'], hence in canonical form. *)
Theorem returned_entries_are_normalised :
  ∀ (r : response) (entry : Trx.t),
    entry ∈ (getTonLastTransactions r).1 →
    (Trx.memo entry = JNull ∨ truthy (Trx.memo entry) = true)
    ∧ Trx.memo entry ≠ JStr ""
    ∧ (∃ raw, convert_amount raw "ton" = Ok (Trx.amount entry))
    ∧ Trx.amount entry ≠ ""
    ∧ rstrip "." (Trx.amount entry) = Trx.amount entry
    ∧ (has_point (Trx.amount entry) = true →
       rstrip "0" (Trx.amount entry) = Trx.amount entry).
Proof.
  intros r entry Hin.
  destruct (page_entries r entry Hin) as (addresses & trx & memo & Hmemo & Hbuild).
  apply read_memo_truthy in Hmemo.
  apply build_entry_fields in Hbuild as (-> & raw & Hraw).
  destruct (convert_amount_canonical_form _ _ _ Hraw) as (? & _ & ? & ?).
  split; [done |]. split; [by destruct Hmemo as [-> | Ht]; [| intros ->] |].
  split; [by exists raw |]. done.
Qed.

Lemma returned_entries_are_normalised_witness :
  Sample.parsed_good ∈
    (getTonLastTransactions (Body (Sample.page_of [Sample.good]))).1
  ∧ Trx.memo Sample.parsed_good ≠ JStr ""
  ∧ rstrip "." (Trx.amount Sample.parsed_good) = Trx.amount Sample.parsed_good.
Proof.
  assert (Sample.parsed_good ∈
            (getTonLastTransactions (Body (Sample.page_of [Sample.good]))).1)
    as Hin by (vm_compute; apply list_elem_of_here).
  destruct (returned_entries_are_normalised _ _ Hin) as (_ & H2 & _ & _ & H5 & _).
  split; [exact Hin |]. split; [exact H2 | exact H5].
Defined.

(** ** The sender's address *)

Lemma dict_find_set_str (s s' : string) (v : json) (d : list (json * json)) :
  dict_find (JStr s) (dict_set (JStr s') v d) =
  if String.eqb s s' then Some v else dict_find (JStr s) d.
Proof.
  induction d as [| [k' v'] rest IH]; cbn.
  - by destruct (String.eqb s s').
  - destruct k'; cbn; try exact IH.
    destruct (String.eqb_spec s' s0) as [<- | Hne]; cbn.
    + by destruct (String.eqb s s').
    + destruct (String.eqb_spec s s0) as [<- | Hne']; [| exact IH].
      destruct (String.eqb_spec s s'); [by subst | done].
Qed.

Lemma dict_set_str_keys (s : string) (v : json) (d : list (json * json)) :
  str_keys d → str_keys (dict_set (JStr s) v d).
Proof.
  unfold str_keys. induction 1 as [| [k' v'] rest Hk Hrest IH]; cbn [dict_set].
  - repeat constructor. by exists s.
  - destruct (key_eqb (JStr s) k'); by constructor.
Qed.

Lemma dict_find_other (k : json) (d : list (json * json)) :
  str_keys d → (∀ s, k ≠ JStr s) → dict_find k d = None.
Proof.
  intros Hd Hk. induction Hd as [| [k' v'] rest [s Hs] _ IH]; [done |].
  cbn in *. subst k'. destruct k; try done. by destruct (Hk s0).
Qed.

Lemma subscript_obj (fields : list (string * json)) (key entry : json) :
  subscript (JObj fields) key = Ok entry →
  ∃ s, key = JStr s ∧ assoc s fields = Some entry.
Proof.
  destruct key; try done. cbn. intros H. exists s.
  destruct (assoc s fields); [| done]. by injection H as ->.
Qed.

(** The loop that fills [addresses] writes, for every key it goes through,
    the name the book gives, and leaves the other keys alone. *)
Lemma fill_addresses_spec (data : json) (fields : list (string * json))
    (names : list string) (acc addresses : list (json * json)) :
  getitem data "address_book" = Ok (JObj fields) →
  fill_addresses data (map JStr names) acc = Ok addresses → str_keys acc →
  str_keys addresses
  ∧ ∀ s, if decide (s ∈ names)
         then ∃ entry name, assoc s fields = Some entry ∧
                get entry "user_friendly" (JStr "Unknown") = Ok name ∧
                dict_find (JStr s) addresses = Some name
         else dict_find (JStr s) addresses = dict_find (JStr s) acc.
Proof.
  intros Hbook. revert acc.
  induction names as [| s' rest IH]; intros acc Hrun Hacc.
  - injection Hrun as <-. split; [done |]. intros s.
    destruct (decide _) as [Hin | _]; [by apply not_elem_of_nil in Hin | done].
  - cbn [map fill_addresses] in Hrun. rewrite Hbook in Hrun.
    cbn [mbind result_bind] in Hrun.
    destruct (subscript (JObj fields) (JStr s')) as [entry | e] eqn:Hsub; [| done].
    apply subscript_obj in Hsub as (s0 & [= <-] & Hentry).
    cbn [mbind result_bind] in Hrun.
    destruct (get entry "user_friendly" (JStr "Unknown")) as [name | e] eqn:Hname;
      [| done].
    cbn [mbind result_bind] in Hrun.
    destruct (IH _ Hrun (dict_set_str_keys s' name acc Hacc)) as [Hkeys Hfind].
    split; [exact Hkeys |]. intros s. specialize (Hfind s).
    destruct (decide (s ∈ rest)) as [Hin | Hout].
    + rewrite decide_True by (by right). exact Hfind.
    + rewrite Hfind, dict_find_set_str.
      destruct (String.eqb_spec s s') as [-> | Hne].
      * rewrite decide_True by (by left). by exists entry, name.
      * rewrite decide_False; [done |].
        intros Hin. by apply elem_of_cons in Hin as [? | ?].
Qed.

Lemma assoc_elem_of {V : Type} (s : string) (fields : list (string * V)) :
  s ∈ map fst fields ↔ is_Some (assoc s fields).
Proof.
  induction fields as [| [k v] rest IH]; cbn.
  - split; [intros H; by apply not_elem_of_nil in H | by intros [? ?]].
  - destruct (String.eqb_spec s k) as [-> | Hne].
    + split; [by eexists | by left].
    + rewrite <- IH. split.
      * intros H. by apply elem_of_cons in H as [? | ?].
      * by right.
Qed.

(** The [addresses] dict once the whole book is read. *)
Lemma prepare_book (data : json) (fields : list (string * json))
    (addresses : list (json * json)) (trxs : list json) :
  get data "address_book" (JObj []) = Ok (JObj fields) →
  prepare data = Ok (addresses, trxs) →
  str_keys addresses
  ∧ ∀ s, match assoc s fields with
         | Some entry =>
             ∃ name, get entry "user_friendly" (JStr "Unknown") = Ok name ∧
                     dict_find (JStr s) addresses = Some name
         | None => dict_find (JStr s) addresses = None
         end.
Proof.
  intros Hbook Hprep. unfold prepare in Hprep. rewrite Hbook in Hprep.
  cbn [mbind result_bind iter] in Hprep.
  rewrite <- (map_map fst JStr) in Hprep.
  destruct (fill_addresses data (map JStr (map fst fields)) [])
    as [filled | e] eqn:Hfill; [| done].
  cbn [mbind result_bind] in Hprep.
  destruct (get data "transactions" (JArr [])) as [page | e]; [| done].
  cbn [mbind result_bind] in Hprep.
  destruct (iter page) as [items | e]; [| done].
  injection Hprep as -> _.
  destruct fields as [| field fields'].
  { injection Hfill as <-. split; [by constructor | done]. }
  assert (getitem data "address_book" = Ok (JObj (field :: fields'))) as Hget.
  { destruct data; try done. cbn in *.
    destruct (assoc "address_book" fields); [done | by injection Hbook]. }
  destruct (fill_addresses_spec _ _ _ _ _ Hget Hfill) as [Hkeys Hfind];
    [by constructor |].
  split; [exact Hkeys |]. intros s. specialize (Hfind s).
  destruct (decide _) as [Hin | Hout].
  - destruct Hfind as (entry & name & -> & ? & ?). by exists name.
  - rewrite assoc_elem_of in Hout.
    destruct (assoc s (field :: fields')); [by destruct Hout |].
    by rewrite Hfind.
Qed.

(** What [addresses.get(source, "Unknown address")] gives then. *)
Lemma prepare_addresses (data : json) (fields : list (string * json))
    (addresses : list (json * json)) (trxs : list json) (source : json) :
  get data "address_book" (JObj []) = Ok (JObj fields) →
  prepare data = Ok (addresses, trxs) →
  dict_get addresses source (JStr "Unknown address") =
  match source with
  | JStr s =>
      match assoc s fields with
      | Some entry => get entry "user_friendly" (JStr "Unknown")
      | None => Ok (JStr "Unknown address")
      end
  | JArr _ | JObj _ => Raise TypeError
  | _ => Ok (JStr "Unknown address")
  end.
Proof.
  intros Hbook Hprep.
  destruct (prepare_book _ _ _ _ Hbook Hprep) as [Hkeys Hfind].
  unfold dict_get. destruct source; cbn [hashable]; try done;
    try (rewrite dict_find_other; [done | done | by intros ?]).
  specialize (Hfind s). destruct (assoc s fields) as [entry |].
  - by destruct Hfind as (name & -> & ->).
  - by rewrite Hfind.
Qed.

(** X7.  The [address] of an entry is resolved through the address book of
    the same response: with [source] the sender of the record (or [None]
    when the record names none), it is the book's [user_friendly] name for
    that sender, ['Unknown'] when the book lists the sender without such a
    name, and ['Unknown address'] when the sender is not in the book or is
    not a string. *)
Theorem entry_address_is_resolved_through_the_book :
  ∀ (data : json) (fields : list (string * json))
    (addresses : list (json * json)) (trxs : list json) (trx memo : json)
    (entry : Trx.t),
    get data "address_book" (JObj []) = Ok (JObj fields) →
    prepare data = Ok (addresses, trxs) →
    build_entry addresses trx memo = Ok entry →
    ∃ in_msg source,
      getitem trx "in_msg" = Ok in_msg
      ∧ get in_msg "source" JNull = Ok source
      ∧ Ok (Trx.address entry) =
        match source with
        | JStr s =>
            match assoc s fields with
            | Some book_entry => get book_entry "user_friendly" (JStr "Unknown")
            | None => Ok (JStr "Unknown address")
            end
        | _ => Ok (JStr "Unknown address")
        end.
Proof.
  intros data fields addresses trxs trx memo entry Hbook Hprep Hbuild.
  unfold build_entry in Hbuild. bind_ok Hbuild. injection Hbuild as <-.
  cbn [Trx.address]. eexists _, _. split; [done |]. split; [done |].
  rewrite <- E1, (prepare_addresses _ _ _ _ _ Hbook Hprep).
  destruct a0; try done.
  all: by rewrite (prepare_addresses _ _ _ _ _ Hbook Hprep) in E1.
Qed.

Lemma entry_address_is_resolved_through_the_book_witness :
  get (Sample.page_of [Sample.good]) "address_book" (JObj []) =
    Ok (JObj [("0:abc", JObj [("user_friendly", JStr "EQabc")])])
  ∧ prepare (Sample.page_of [Sample.good]) =
    Ok ([(JStr "0:abc", JStr "EQabc")], [Sample.good])
  ∧ build_entry [(JStr "0:abc", JStr "EQabc")] Sample.good (JStr "x") =
    Ok Sample.parsed_good
  ∧ ∃ in_msg source,
      getitem Sample.good "in_msg" = Ok in_msg
      ∧ get in_msg "source" JNull = Ok source
      ∧ Ok (Trx.address Sample.parsed_good) =
        match source with
        | JStr s =>
            match assoc s [("0:abc", JObj [("user_friendly", JStr "EQabc")])] with
            | Some book_entry => get book_entry "user_friendly" (JStr "Unknown")
            | None => Ok (JStr "Unknown address")
            end
        | _ => Ok (JStr "Unknown address")
        end.
Proof.
  assert (get (Sample.page_of [Sample.good]) "address_book" (JObj []) =
          Ok (JObj [("0:abc", JObj [("user_friendly", JStr "EQabc")])])) as Hbook
    by reflexivity.
  assert (prepare (Sample.page_of [Sample.good]) =
          Ok ([(JStr "0:abc", JStr "EQabc")], [Sample.good])) as Hprep
    by reflexivity.
  assert (build_entry [(JStr "0:abc", JStr "EQabc")] Sample.good (JStr "x") =
          Ok Sample.parsed_good) as Hbuild
    by (vm_compute; reflexivity).
  split; [exact Hbook |]. split; [exact Hprep |]. split; [exact Hbuild |].
  exact (entry_address_is_resolved_through_the_book _ _ _ _ _ _ _
           Hbook Hprep Hbuild).
Defined.

(** ** Which records are skipped *)

Lemma convert_amount_raise_cases (amount : Z) (blockchain : string) (e : exn) :
  convert_amount amount blockchain = Raise e → e = ValueError ∨ e = OverflowError.
Proof.
  unfold convert_amount.
  destruct (decimals_map !! lower blockchain) as [d |] eqn:Hmap;
    [| intros [= <-]; by left].
  destruct (Z.eqb_spec amount 0) as [-> | Hnz]; [done |].
  assert (0 < d) as Hd
    by (destruct (decimals_map_cases _ _ Hmap) as [-> | [-> | ->]]; lia).
  assert (0 < 10 ^ d) as Hp by (apply Z.pow_pos_nonneg; lia).
  destruct (true_div_cases amount (10 ^ d) Hnz Hp) as [_ Hdiv].
  rewrite Hdiv. destruct (_ || _); [intros [= <-]; by right | done].
Qed.

Lemma read_memo_in_msg (trx memo : json) :
  read_memo trx = Ok memo →
  ∃ fields msg, trx = JObj fields ∧ getitem trx "in_msg" = Ok (JObj msg).
Proof.
  unfold read_memo. intros H.
  destruct (getitem trx "in_msg") as [in_msg | e] eqn:Hmsg; [| done].
  cbn [mbind result_bind] in H.
  destruct in_msg; try done. destruct trx; try done. by eexists _, _.
Qed.

Lemma getitem_obj_cases (fields : list (string * json)) (k : string) :
  (∃ x, getitem (JObj fields) k = Ok x) ∨ getitem (JObj fields) k = Raise KeyError.
Proof. cbn. destruct (assoc k fields); [left; by eexists | by right]. Qed.

Lemma dict_get_hashable (d : list (json * json)) (k default : json) :
  hashable k = true → ∃ v, dict_get d k default = Ok v.
Proof.
  intros Hk. unfold dict_get. rewrite Hk. destruct (dict_find k d); by eexists.
Qed.

Lemma get_raise_cases (v : json) (k : string) (default : json) (e : exn) :
  get v k default = Raise e → e = AttributeError.
Proof.
  destruct v; cbn; try (by intros [= <-]). by destruct (assoc k fields).
Qed.

Lemma py_int_raise_cases (v : json) (e : exn) :
  py_int v = Raise e → e = TypeError ∨ e = ValueError.
Proof.
  destruct v; cbn; try (intros [= <-]; by left); try done.
  destruct (int_of_string s); [done | intros [= <-]; by right].
Qed.

(** X8.  The records skipped with a warning are exactly those whose memo can
    be read and whose sender can be looked up, and that lack [hash], [now],
    [description] or [description.compute_ph].  No other defect of a record
    is tolerated: a missing or non-numeric [value], for one, is never a
    reason to skip. *)
Theorem skipped_records_lack_a_header_field :
  ∀ (addresses : list (json * json)) (trx : json),
    fate_of addresses trx = Skipped ↔
    ∃ memo in_msg source,
      read_memo trx = Ok memo
      ∧ getitem trx "in_msg" = Ok in_msg
      ∧ get in_msg "source" JNull = Ok source
      ∧ hashable source = true
      ∧ (getitem trx "hash" = Raise KeyError
         ∨ getitem trx "now" = Raise KeyError
         ∨ getitem trx "description" = Raise KeyError
         ∨ ∃ description, getitem trx "description" = Ok description ∧
                          getitem description "compute_ph" = Raise KeyError).
Proof.
  intros addresses trx. unfold fate_of. split.
  - destruct (read_memo trx) as [memo | e] eqn:Hmemo; [| done].
    destruct (read_memo_in_msg _ _ Hmemo) as (fields & msg & -> & Hmsg).
    destruct (build_entry addresses (JObj fields) memo) as [entry | e] eqn:Hb;
      [done |].
    destruct e; try done. intros _.
    unfold build_entry in Hb. rewrite Hmsg in Hb. cbn [mbind result_bind] in Hb.
    destruct (get (JObj msg) "source" JNull) as [source | e] eqn:Hsource;
      [| by apply get_raise_cases in Hsource as ->].
    cbn [mbind result_bind] in Hb.
    destruct (hashable source) eqn:Hhash;
      [| unfold dict_get in Hb; by rewrite Hhash in Hb].
    exists memo, (JObj msg), source. do 4 (split; [done |]).
    destruct (dict_get_hashable addresses source (JStr "Unknown address") Hhash)
      as [address Haddress].
    rewrite Haddress in Hb. cbn [mbind result_bind] in Hb.
    destruct (getitem_obj_cases fields "hash") as [[hash Hh] | Hh]; [| by left].
    rewrite Hh in Hb. cbn [mbind result_bind] in Hb.
    destruct (getitem_obj_cases fields "now") as [[time Hn] | Hn];
      [| right; by left].
    rewrite Hn in Hb. cbn [mbind result_bind] in Hb.
    destruct (getitem_obj_cases fields "description") as [[description Hd] | Hd];
      [| right; right; by left].
    rewrite Hd in Hb. cbn [mbind result_bind] in Hb.
    destruct (getitem description "compute_ph") as [compute_ph | e] eqn:Hc.
    2: { injection Hb as ->. right; right; right. by exists description. }
    exfalso. cbn [mbind result_bind] in Hb.
    destruct (get compute_ph "success" (JBool false)) as [success | e] eqn:Hs;
      [| by apply get_raise_cases in Hs as ->].
    cbn [mbind result_bind] in Hb.
    destruct (get (JObj msg) "value" JNull) as [value | e] eqn:Hv;
      [| by apply get_raise_cases in Hv as ->].
    cbn [mbind result_bind] in Hb.
    destruct (py_int value) as [raw | e] eqn:Hraw;
      [| by destruct (py_int_raise_cases _ _ Hraw) as [-> | ->]].
    cbn [mbind result_bind] in Hb.
    destruct (convert_amount raw "ton") as [amount | e] eqn:Hamount; [done |].
    by destruct (convert_amount_raise_cases _ _ _ Hamount) as [-> | ->].
  - intros (memo & in_msg & source & Hmemo & Hmsg & Hsource & Hhash & Hlack).
    rewrite Hmemo.
    destruct (read_memo_in_msg _ _ Hmemo) as (fields & msg & -> & Hmsg').
    unfold build_entry. rewrite Hmsg. cbn [mbind result_bind]. rewrite Hsource.
    cbn [mbind result_bind].
    destruct (dict_get_hashable addresses source (JStr "Unknown address") Hhash)
      as [address ->].
    cbn [mbind result_bind].
    destruct (getitem_obj_cases fields "hash") as [[hash Hh] | Hh];
      rewrite Hh; cbn [mbind result_bind]; [| done].
    destruct (getitem_obj_cases fields "now") as [[time Hn] | Hn];
      rewrite Hn; cbn [mbind result_bind]; [| done].
    destruct (getitem_obj_cases fields "description") as [[description Hd] | Hd];
      rewrite Hd; cbn [mbind result_bind]; [| done].
    destruct Hlack as [? | [? | [? | (d & Hd' & Hc)]]]; try congruence.
    assert (d = description) as -> by congruence.
    by rewrite Hc.
Qed.

Lemma skipped_records_lack_a_header_field_witness :
  fate_of [(JStr "0:abc", JStr "EQabc")] Sample.no_hash = Skipped.
Proof.
  apply (proj2 (skipped_records_lack_a_header_field _ Sample.no_hash)).
  exists (JStr "x"), Sample.in_msg, (JStr "0:abc").
  do 4 (split; [reflexivity |]). by left.
Defined.

(** ** The session's effects *)

Lemma cycles_snoc (n : nat) (address : string) (checkTime : Z) :
  cycles (S n) address checkTime =
  [Fetch address; Sleep checkTime] ++ cycles n address checkTime.
Proof. reflexivity. Qed.

Lemma slept_cons (ev : event) (t : list event) :
  slept (ev :: t) =
  match ev with
  | Sleep seconds => seconds + slept t
  | Fetch _ => slept t
  end.
Proof. reflexivity. Qed.

Lemma slept_app (t1 t2 : list event) : slept (t1 ++ t2) = slept t1 + slept t2.
Proof.
  induction t1 as [| ev t1 IH]; [done |].
  rewrite <- app_comm_cons, !slept_cons, IH. destruct ev; lia.
Qed.

Lemma slept_cycles (n : nat) (address : string) (checkTime : Z) :
  slept (cycles n address checkTime) = Z.of_nat n * checkTime.
Proof.
  induction n as [| n IH]; [done |].
  rewrite cycles_snoc, slept_app, IH, !slept_cons. change (slept []) with 0. lia.
Qed.

Section Effects.

Variables (user_id blockchain address amount : string).
Variable timeInterval : Z.
Variable memo : option string.
Variable checkTime : Z.
Variable w : world.

Local Abbreviation body' :=
  (body user_id blockchain address amount timeInterval memo checkTime w).
Local Abbreviation poll' :=
  (poll user_id blockchain address amount timeInterval memo checkTime w).
Local Abbreviation next_state' := (next_state user_id address checkTime w).

(** From any state, the rest of the call adds whole cycles and then, when it
    ends with [True], one more fetch. *)
Lemma poll_trace_shape (fuel : nat) (s : loop_state) (fin : final) :
  poll' fuel s = Some fin →
  ∃ n : nat,
    trace_of fin =
      trace s ++ cycles n address checkTime ++ last_effects address (result_of fin)
    ∧ (n ≠ 0%nat → i s ≤ timeInterval ∧ blockchain = "ton"
                   ∧ i s + Z.of_nat (n - 1) * checkTime ≤ timeInterval).
Proof.
  revert s. induction fuel as [| fuel IH]; intros s Hrun; [done |].
  cbn [poll] in Hrun.
  destruct (body_cases user_id blockchain address amount timeInterval memo
              checkTime w s)
    as [[_ E] | [(_ & _ & E) | [(_ & _ & _ & E) |
        [(_ & _ & _ & _ & E) | (Hi & _ & Hton & _ & E)]]]];
    rewrite E in Hrun.
  1-4: injection Hrun as <-; exists 0%nat; cbn; rewrite ?app_nil_r; by split.
  apply IH in Hrun as (n & Htr & Hn). exists (S n). split.
  - rewrite Htr. cbn [next_state trace]. rewrite cycles_snoc.
    by rewrite <- !app_assoc.
  - intros _. split; [done |]. split; [done |].
    destruct n as [| n]; [cbn; lia |].
    destruct Hn as (_ & _ & Hn); [done |]. cbn [next_state i] in Hn.
    replace (S (S n) - 1)%nat with (S n) by lia.
    replace (S n - 1)%nat with n in Hn by lia. lia.
Qed.

End Effects.

Section Runs.

Variables (user_id blockchain address amount : string).
Variable timeInterval : Z.
Variable memo : option string.
Variable checkTime : Z.
Variable w : world.

Local Abbreviation body' :=
  (body user_id blockchain address amount timeInterval memo checkTime w).
Local Abbreviation poll' :=
  (poll user_id blockchain address amount timeInterval memo checkTime w).
Local Abbreviation next_state' := (next_state user_id address checkTime w).

(** A session that nobody cancels and that ends with [False] has let the
    budget run out. *)
Lemma poll_expired_slept (fuel : nat) (s : loop_state) (fin : final) :
  blockchain = "ton" → never_cancelled user_id w →
  stop_events s !! user_id = Some false → i s = slept (trace s) →
  poll' fuel s = Some fin → result_of fin = Returned false →
  timeInterval < slept (trace_of fin).
Proof.
  intros Hton Hnever. revert s.
  induction fuel as [| fuel IH]; intros s Hunset Hi Hrun Hres; [done |].
  cbn [poll] in Hrun.
  pose proof (signal_for_present _ _ _ Hunset) as Hsig.
  destruct (body_cases user_id blockchain address amount timeInterval memo
              checkTime w s)
    as [[Hlt E] | [(_ & Hset & _) | [(_ & _ & Hne & _) |
        [(_ & _ & _ & _ & E) | (_ & Hflag & _ & _ & E)]]]];
    try congruence; rewrite E in Hrun.
  - injection Hrun as <-. cbn [trace_of]. lia.
  - injection Hrun as <-. done.
  - apply (IH (next_state' s)); try done.
    + by apply next_state_unset.
    + cbn [next_state i trace]. rewrite slept_app, !slept_cons.
      change (slept []) with 0. lia.
Qed.

(** No page matches: the call does not end with [True]. *)
Lemma poll_no_match (fuel : nat) (s : loop_state) (fin : final) :
  (∀ k, cycle_matches amount memo (w k) = false) →
  poll' fuel s = Some fin → result_of fin ≠ Returned true.
Proof.
  intros Hnone. revert s. induction fuel as [| fuel IH]; intros s Hrun; [done |].
  cbn [poll] in Hrun.
  destruct (body_cases user_id blockchain address amount timeInterval memo
              checkTime w s)
    as [[_ E] | [(_ & _ & E) | [(_ & _ & _ & E) |
        [(_ & _ & _ & Hm & E) | (_ & _ & _ & _ & E)]]]];
    try (rewrite Hnone in Hm; done); rewrite E in Hrun;
    try (injection Hrun as <-; done).
  by eapply IH.
Qed.

(** The first page that matches ends the call, right after its fetch. *)
Lemma poll_first_match (k : nat) (s : loop_state) (fuel : nat) :
  0 ≤ checkTime → blockchain = "ton" → never_cancelled user_id w →
  stop_events s !! user_id = Some false →
  i s + Z.of_nat k * checkTime ≤ timeInterval →
  cycle_matches amount memo (w (cycle_no s + k)%nat) = true →
  (∀ j, (j < k)%nat → cycle_matches amount memo (w (cycle_no s + j)%nat) = false) →
  (k < fuel)%nat →
  ∃ reg, poll' fuel s =
    Some (mk_final (Returned true) reg
            (trace s ++ cycles k address checkTime ++ [Fetch address])).
Proof.
  intros Hct Hton Hnever. revert s fuel.
  induction k as [| k IH]; intros s fuel Hunset Hi Hm Hbefore Hfuel;
    (destruct fuel as [| fuel]; [lia |]); cbn [poll];
    pose proof (signal_for_present _ _ _ Hunset) as Hsig.
  - rewrite Nat.add_0_r in Hm.
    rewrite body_running by (rewrite ?Hsig; first [done | lia]).
    rewrite Hm. by eexists.
  - rewrite body_running by (rewrite ?Hsig; first [done | nia]).
    pose proof (Hbefore 0%nat ltac:(lia)) as H0.
    rewrite Nat.add_0_r in H0. rewrite H0.
    destruct (IH (next_state' s) fuel) as (reg & Hrun).
    + apply next_state_unset; [done | by rewrite Hsig].
    + cbn [next_state i]. lia.
    + cbn [next_state cycle_no]. by replace (S (cycle_no s) + k)%nat
        with (cycle_no s + S k)%nat by lia.
    + intros j Hj. cbn [next_state cycle_no].
      replace (S (cycle_no s) + j)%nat with (cycle_no s + S j)%nat by lia.
      apply Hbefore. lia.
    + lia.
    + exists reg. rewrite Hrun. cbn [next_state trace]. rewrite cycles_snoc.
      by rewrite <- !app_assoc.
Qed.

End Runs.

(** ** The registry *)

Lemma signal_for_dom (u : string) (reg : registry) :
  dom (signal_for u reg).2 = {[u]} ∪ dom reg.
Proof.
  unfold signal_for. destruct (reg !! u) eqn:E; cbn.
  - symmetry. apply subseteq_union_1_L, singleton_subseteq_l, elem_of_dom. eauto.
  - by rewrite dom_insert_L.
Qed.

Lemma signal_for_dom_sub (u : string) (reg : registry) :
  dom reg ⊆ dom (signal_for u reg).2.
Proof. rewrite signal_for_dom. apply union_subseteq_r. Qed.

Lemma intrude_dom (a : intrusion) (reg : registry) :
  dom (intrude a reg) = {[targets a]} ∪ dom reg.
Proof.
  destruct a; cbn; rewrite ?stop_monitoring_insert, ?clear_signal_insert;
    by rewrite dom_insert_L.
Qed.

Lemma intrusions_dom (l : list intrusion) (reg : registry) :
  dom reg ⊆ dom (intrusions l reg).
Proof.
  revert reg. induction l as [| a l IH]; intros reg; [done |]. cbn.
  etrans; [| apply IH]. rewrite intrude_dom. apply union_subseteq_r.
Qed.

Lemma poll_dom (user_id blockchain address amount : string) (timeInterval : Z)
    (memo : option string) (checkTime : Z) (w : world) (fuel : nat)
    (s : loop_state) (fin : final) :
  poll user_id blockchain address amount timeInterval memo checkTime w fuel s =
    Some fin →
  dom (stop_events s) ⊆ dom (registry_of fin).
Proof.
  revert s. induction fuel as [| fuel IH]; intros s Hrun; [done |].
  cbn [poll] in Hrun.
  pose proof (signal_for_dom_sub user_id (stop_events s)) as Hsub.
  destruct (body_cases user_id blockchain address amount timeInterval memo
              checkTime w s)
    as [[_ E] | [(_ & _ & E) | [(_ & _ & _ & E) |
        [(_ & _ & _ & _ & E) | (_ & _ & _ & _ & E)]]]];
    rewrite E in Hrun.
  1-3: by injection Hrun as <-.
  - injection Hrun as <-. cbn. etrans; [exact Hsub | apply intrusions_dom].
  - apply IH in Hrun. etrans; [| exact Hrun]. cbn.
    etrans; [exact Hsub |]. etrans; [| apply intrusions_dom]. apply intrusions_dom.
Qed.

Lemma flag_after_stays_unset (b : string) (l : list intrusion) :
  Stops b ∉ l → flag_after b l (Some false) = Some false.
Proof.
  induction l as [| a l IH]; intros Hl; [done |]. cbn.
  assert (Stops b ∉ l) as Hl' by (intros ?; apply Hl; by right).
  destruct a as [u | u]; case_decide; subst; try (by apply IH).
  exfalso. apply Hl. by left.
Qed.

(** The last word about [b] is a new start: the signal is cleared. *)
Lemma flag_after_start_last (b : string) (l1 l2 : list intrusion) (o : option bool) :
  Stops b ∉ l2 → flag_after b (l1 ++ Starts b :: l2) o = Some false.
Proof.
  intros Hl2. rewrite flag_after_app. cbn. rewrite decide_True by done.
  by apply flag_after_stays_unset.
Qed.

(** ** Calls of [stop_monitoring] and [monitorTransactions] *)

(** X9.  [stop_monitoring] sets the user's signal, creating it when the user
    is new to the registry; calling it twice is calling it once, calls for
    different users commute, and of a stop and a clear of the same signal the
    later one counts. *)
Theorem stop_monitoring_laws :
  ∀ (u v : string) (reg : registry),
    (is_set u (stop_monitoring u reg)).1 = true
    ∧ dom (stop_monitoring u reg) = {[u]} ∪ dom reg
    ∧ stop_monitoring u (stop_monitoring u reg) = stop_monitoring u reg
    ∧ stop_monitoring u (clear_signal u reg) = stop_monitoring u reg
    ∧ clear_signal u (stop_monitoring u reg) = clear_signal u reg
    ∧ (is_set u (clear_signal u reg)).1 = false
    ∧ (u ≠ v →
       stop_monitoring u (stop_monitoring v reg) =
       stop_monitoring v (stop_monitoring u reg)
       ∧ (is_set v (stop_monitoring u reg)).1 = (is_set v reg).1).
Proof.
  intros u v reg.
  assert (∀ (x : string) (flag : bool) (r : registry),
            (is_set x (<[x := flag]> r)).1 = flag) as Hread.
  { intros x flag r. unfold is_set.
    by rewrite (signal_for_present x _ flag) by apply lookup_insert_eq. }
  rewrite !stop_monitoring_insert, !clear_signal_insert.
  split; [apply Hread |]. split; [by rewrite dom_insert_L |].
  split; [by rewrite insert_insert_eq |]. split; [by rewrite insert_insert_eq |].
  split; [by rewrite insert_insert_eq |]. split; [apply Hread |].
  intros Hne. split.
  - by apply insert_insert_ne.
  - unfold is_set, signal_for. rewrite lookup_insert_ne by done.
    by destruct (reg !! v).
Qed.

Lemma stop_monitoring_laws_witness :
  "alice" ≠ "bob"
  ∧ stop_monitoring "alice" (stop_monitoring "bob" ∅) =
    stop_monitoring "bob" (stop_monitoring "alice" ∅)
  ∧ (is_set "bob" (stop_monitoring "alice" ∅)).1 = (is_set "bob" ∅).1.
Proof.
  assert ("alice" ≠ "bob") as Hne by discriminate.
  split; [exact Hne |].
  exact (proj2 (proj2 (proj2 (proj2 (proj2 (proj2
           (stop_monitoring_laws "alice" "bob" ∅)))))) Hne).
Defined.

(** X10.  No call removes an entry of [stop_events]: when a session ends, every
    user the registry knew at its start is still there, and so is the
    session's own user, whatever the outcome. *)
Theorem registry_never_shrinks :
  ∀ (user_id blockchain address amount : string) (timeInterval : Z)
    (memo : option string) (checkTime : Z) (w : world) (fuel : nat)
    (reg : registry) (fin : final),
    monitorTransactions user_id blockchain address amount timeInterval memo
      checkTime w fuel reg = Some fin →
    dom reg ⊆ dom (registry_of fin) ∧ user_id ∈ dom (registry_of fin).
Proof.
  intros user_id blockchain address amount timeInterval memo checkTime w fuel
    reg fin Hrun.
  apply poll_dom in Hrun. cbn in Hrun.
  rewrite clear_signal_insert, dom_insert_L in Hrun. split.
  - etrans; [apply union_subseteq_r | exact Hrun].
  - apply Hrun, elem_of_union_l, elem_of_singleton. done.
Qed.

Lemma registry_never_shrinks_witness :
  monitorTransactions "user123" "ton" "wallet_address" "10" 10 None 5
    Sample.third_poll 3 {["bob" := true]} =
  Some (mk_final (Returned true) {["user123" := false; "bob" := true]}
          [Fetch "wallet_address"; Sleep 5; Fetch "wallet_address"; Sleep 5;
           Fetch "wallet_address"])
  ∧ dom ({["bob" := true]} : registry) ⊆
    dom ({["user123" := false; "bob" := true]} : registry)
  ∧ "user123" ∈ dom ({["user123" := false; "bob" := true]} : registry).
Proof.
  assert (monitorTransactions "user123" "ton" "wallet_address" "10" 10 None 5
            Sample.third_poll 3 {["bob" := true]} =
          Some (mk_final (Returned true) {["user123" := false; "bob" := true]}
                  [Fetch "wallet_address"; Sleep 5; Fetch "wallet_address"; Sleep 5;
                   Fetch "wallet_address"])) as Hrun by (vm_compute; reflexivity).
  split; [exact Hrun |].
  exact (registry_never_shrinks _ _ _ _ _ _ _ _ _ _ _ Hrun).
Defined.

(** X11.  The effects of a call are whole cycles, each one a fetch of the
    monitored address followed by a sleep of [checkTime] seconds, and after
    them one more fetch exactly when the call returns [True]: the session
    never returns [False] or raises between a fetch and the sleep that
    follows it. *)
Theorem session_effects_are_whole_cycles :
  ∀ (user_id blockchain address amount : string) (timeInterval : Z)
    (memo : option string) (checkTime : Z) (w : world) (fuel : nat)
    (reg : registry) (fin : final),
    monitorTransactions user_id blockchain address amount timeInterval memo
      checkTime w fuel reg = Some fin →
    ∃ n : nat,
      trace_of fin =
        cycles n address checkTime ++ last_effects address (result_of fin)
      ∧ sleeps (trace_of fin) = n
      ∧ fetches (trace_of fin) =
          (n + length (last_effects address (result_of fin)))%nat.
Proof.
  intros user_id blockchain address amount timeInterval memo checkTime w fuel
    reg fin Hrun.
  apply poll_trace_shape in Hrun as (n & Htr & _). cbn in Htr.
  exists n. split; [done |]. rewrite Htr, sleeps_app, fetches_app. clear.
  assert (sleeps (cycles n address checkTime) = n ∧
          fetches (cycles n address checkTime) = n) as [-> ->].
  { induction n as [| n [IH1 IH2]]; [done |].
    rewrite cycles_snoc, sleeps_app, fetches_app, IH1, IH2. done. }
  by destruct (result_of fin) as [[] |].
Qed.

Lemma session_effects_are_whole_cycles_witness :
  monitorTransactions "user123" "ton" "wallet_address" "10" 10 None 5
    Sample.third_poll 3 ∅ =
  Some (mk_final (Returned true) {["user123" := false]}
          [Fetch "wallet_address"; Sleep 5; Fetch "wallet_address"; Sleep 5;
           Fetch "wallet_address"])
  ∧ ∃ n : nat,
      [Fetch "wallet_address"; Sleep 5; Fetch "wallet_address"; Sleep 5;
       Fetch "wallet_address"] =
        cycles n "wallet_address" 5 ++ last_effects "wallet_address" (Returned true)
      ∧ sleeps [Fetch "wallet_address"; Sleep 5; Fetch "wallet_address"; Sleep 5;
                Fetch "wallet_address"] = n
      ∧ fetches [Fetch "wallet_address"; Sleep 5; Fetch "wallet_address"; Sleep 5;
                 Fetch "wallet_address"] =
          (n + length (last_effects "wallet_address" (Returned true)))%nat.
Proof.
  assert (monitorTransactions "user123" "ton" "wallet_address" "10" 10 None 5
            Sample.third_poll 3 ∅ =
          Some (mk_final (Returned true) {["user123" := false]}
                  [Fetch "wallet_address"; Sleep 5; Fetch "wallet_address"; Sleep 5;
                   Fetch "wallet_address"])) as Hrun by (vm_compute; reflexivity).
  split; [exact Hrun |].
  exact (session_effects_are_whole_cycles _ _ _ _ _ _ _ _ _ _ _ Hrun).
Defined.

(** X12.  With [checkTime > 0] and a budget of zero or more, a session asks
    for at most [timeInterval + checkTime] seconds of sleep in all.  A
    session on ['ton'] that nobody cancels and that ends with [False] has
    asked for more than [timeInterval]: it polls once more at the boundary
    and sleeps after that poll too. *)
Theorem session_sleeps_within_budget_plus_one_interval :
  ∀ (user_id blockchain address amount : string) (timeInterval : Z)
    (memo : option string) (checkTime : Z) (w : world) (fuel : nat)
    (reg : registry) (fin : final),
    0 < checkTime → 0 ≤ timeInterval →
    monitorTransactions user_id blockchain address amount timeInterval memo
      checkTime w fuel reg = Some fin →
    0 ≤ slept (trace_of fin) ≤ timeInterval + checkTime
    ∧ (blockchain = "ton" → never_cancelled user_id w →
       result_of fin = Returned false →
       timeInterval < slept (trace_of fin)).
Proof.
  intros user_id blockchain address amount timeInterval memo checkTime w fuel
    reg fin Hct Hti Hrun. split.
  - apply poll_trace_shape in Hrun as (n & Htr & Hn). cbn in Htr, Hn.
    rewrite Htr, slept_app, slept_cycles.
    assert (slept (last_effects address (result_of fin)) = 0) as ->
      by (by destruct (result_of fin) as [[] |]).
    destruct n as [| n]; [lia |].
    destruct Hn as (_ & _ & Hn); [done |].
    replace (S n - 1)%nat with n in Hn by lia. lia.
  - intros Hton Hnever Hres.
    apply (poll_expired_slept user_id blockchain address amount timeInterval memo
             checkTime w fuel (start user_id reg) fin); try done.
    cbn. by rewrite clear_signal_insert, lookup_insert_eq.
Qed.

Lemma session_sleeps_within_budget_plus_one_interval_witness :
  0 < 5 ∧ 0 ≤ 10
  ∧ monitorTransactions "user123" "ton" "wallet_address" "10" 10 None 5
      Sample.silence 4 ∅ =
    Some (mk_final (Returned false) {["user123" := false]}
            [Fetch "wallet_address"; Sleep 5; Fetch "wallet_address"; Sleep 5;
             Fetch "wallet_address"; Sleep 5])
  ∧ never_cancelled "user123" Sample.silence
  ∧ 0 ≤ slept [Fetch "wallet_address"; Sleep 5; Fetch "wallet_address"; Sleep 5;
               Fetch "wallet_address"; Sleep 5] ≤ 10 + 5
  ∧ 10 < slept [Fetch "wallet_address"; Sleep 5; Fetch "wallet_address"; Sleep 5;
                Fetch "wallet_address"; Sleep 5].
Proof.
  assert (monitorTransactions "user123" "ton" "wallet_address" "10" 10 None 5
            Sample.silence 4 ∅ =
          Some (mk_final (Returned false) {["user123" := false]}
                  [Fetch "wallet_address"; Sleep 5; Fetch "wallet_address"; Sleep 5;
                   Fetch "wallet_address"; Sleep 5])) as Hrun
    by (vm_compute; reflexivity).
  assert (never_cancelled "user123" Sample.silence) as Hnever
    by (intros k; split; apply not_elem_of_nil).
  destruct (session_sleeps_within_budget_plus_one_interval "user123" "ton"
              "wallet_address" "10" 10 None 5 Sample.silence 4%nat ∅ _
              ltac:(lia) ltac:(lia) Hrun) as [Hle Hgt].
  split; [lia |]. split; [lia |]. split; [exact Hrun |]. split; [exact Hnever |].
  split; [exact Hle |]. exact (Hgt eq_refl Hnever eq_refl).
Defined.



(** X14.  On ['ton'], with [checkTime >= 0] and nobody cancelling, the call
    returns [True] right after the fetch of the first cycle whose page
    matches, provided that cycle starts within the budget: with [k] the index
    of that cycle the effects are [k] whole cycles and one fetch.  This holds
    for [checkTime = 0] as well. *)
Theorem monitor_returns_at_first_matching_poll :
  ∀ (user_id address amount : string) (timeInterval : Z) (memo : option string)
    (checkTime : Z) (w : world) (reg : registry) (k fuel : nat),
    0 ≤ checkTime → never_cancelled user_id w →
    Z.of_nat k * checkTime ≤ timeInterval →
    cycle_matches amount memo (w k) = true →
    (∀ j, (j < k)%nat → cycle_matches amount memo (w j) = false) →
    (k < fuel)%nat →
    ∃ reg',
      monitorTransactions user_id "ton" address amount timeInterval memo
        checkTime w fuel reg =
      Some (mk_final (Returned true) reg'
              (cycles k address checkTime ++ [Fetch address])).
Proof.
  intros user_id address amount timeInterval memo checkTime w reg k fuel
    Hct Hnever Hk Hm Hbefore Hfuel.
  apply (poll_first_match user_id "ton" address amount timeInterval memo
           checkTime w k (start user_id reg) fuel); try done.
  cbn. by rewrite clear_signal_insert, lookup_insert_eq.
Qed.

Lemma monitor_returns_at_first_matching_poll_witness :
  0 ≤ 0 ∧ never_cancelled "user123" Sample.third_poll
  ∧ Z.of_nat 2 * 0 ≤ 10
  ∧ cycle_matches "10" None (Sample.third_poll 2%nat) = true
  ∧ (∀ j, (j < 2)%nat → cycle_matches "10" None (Sample.third_poll j) = false)
  ∧ (2 < 3)%nat
  ∧ ∃ reg',
      monitorTransactions "user123" "ton" "wallet_address" "10" 10 None 0
        Sample.third_poll 3 ∅ =
      Some (mk_final (Returned true) reg'
              (cycles 2%nat "wallet_address" 0 ++ [Fetch "wallet_address"])).
Proof.
  assert (never_cancelled "user123" Sample.third_poll) as Hnever
    by (intros k; split; apply not_elem_of_nil).
  assert (cycle_matches "10" None (Sample.third_poll 2%nat) = true) as Hm
    by (vm_compute; reflexivity).
  assert (∀ j, (j < 2)%nat → cycle_matches "10" None (Sample.third_poll j) = false)
    as Hbefore.
  { intros j Hj. destruct j as [| [| j]]; [vm_compute; reflexivity .. | lia]. }
  split; [lia |]. split; [exact Hnever |]. split; [lia |]. split; [exact Hm |].
  split; [exact Hbefore |]. split; [lia |].
  exact (monitor_returns_at_first_matching_poll "user123" "wallet_address" "10" 10
           None 0 Sample.third_poll ∅ 2%nat 3%nat ltac:(lia) Hnever ltac:(lia)
           Hm Hbefore ltac:(lia)).
Defined.

(** X15.  The signal is shared by every session of a user.  When, during one
    cycle of a running session, the last thing that happens to its user's
    signal is the start of another session for that user, the signal is
    unset at the next cycle boundary, also if [stop_monitoring] was called
    earlier in that cycle: the running session does not see that stop and,
    within the budget, fetches again. *)
Theorem restart_hides_pending_stop :
  ∀ (user_id blockchain address amount : string) (timeInterval : Z)
    (memo : option string) (checkTime : Z) (w : world) (s s' : loop_state)
    (l1 l2 : list intrusion),
    body user_id blockchain address amount timeInterval memo checkTime w s =
      inr s' →
    while_fetching (w (cycle_no s)) ++ while_sleeping (w (cycle_no s)) =
      l1 ++ Starts user_id :: l2 →
    Stops user_id ∉ l2 →
    stop_events s' !! user_id = Some false
    ∧ (i s' ≤ timeInterval →
       match body user_id blockchain address amount timeInterval memo
               checkTime w s' with
       | inl fin =>
           result_of fin = Returned true ∧
           trace_of fin = trace s' ++ [Fetch address]
       | inr s'' => trace s'' = trace s' ++ [Fetch address; Sleep checkTime]
       end).
Proof.
  intros user_id blockchain address amount timeInterval memo checkTime w s s'
    l1 l2 Hpass Hsplit Hl2.
  destruct (body_cases user_id blockchain address amount timeInterval memo
              checkTime w s)
    as [[_ E] | [(_ & _ & E) | [(_ & _ & _ & E) |
        [(_ & _ & _ & _ & E) | (_ & _ & Hton & _ & E)]]]];
    rewrite E in Hpass; try done.
  injection Hpass as <-.
  assert (stop_events (next_state user_id address checkTime w s) !! user_id =
          Some false) as Hunset.
  { cbn [next_state stop_events].
    rewrite <- intrusions_app, Hsplit, flag_after_spec.
    by apply flag_after_start_last. }
  split; [exact Hunset |]. intros Hi.
  rewrite body_running; try done.
  - by destruct (cycle_matches _ _ _).
  - by rewrite (signal_for_present _ _ _ Hunset).
Qed.

Lemma restart_hides_pending_stop_witness :
  body "user123" "ton" "wallet_address" "10" 3600 None 5
    Scenario.stop_then_restart (start "user123" ∅) =
  inr (mk_state 1 5 {["user123" := false]} [Fetch "wallet_address"; Sleep 5])
  ∧ while_fetching (Scenario.stop_then_restart 0%nat) ++
    while_sleeping (Scenario.stop_then_restart 0%nat) =
    [Stops "user123"] ++ Starts "user123" :: []
  ∧ (Stops "user123" ∉ ([] : list intrusion))
  ∧ ({["user123" := false]} : registry) !! "user123" = Some false.
Proof.
  assert (body "user123" "ton" "wallet_address" "10" 3600 None 5
            Scenario.stop_then_restart (start "user123" ∅) =
          inr (mk_state 1 5 {["user123" := false]}
                 [Fetch "wallet_address"; Sleep 5])) as Hpass
    by (vm_compute; reflexivity).
  assert (Stops "user123" ∉ ([] : list intrusion)) as Hl2 by apply not_elem_of_nil.
  split; [exact Hpass |]. split; [reflexivity |]. split; [exact Hl2 |].
  exact (proj1 (restart_hides_pending_stop _ _ _ _ _ _ _ _ _ _
                  [Stops "user123"] [] Hpass eq_refl Hl2)).
Defined.

(** ** What a session writes *)

Lemma intrusions_other (l : list intrusion) (v : string) (reg : registry) :
  (∀ a, a ∈ l → targets a ≠ v) → intrusions l reg !! v = reg !! v.
Proof.
  revert reg. induction l as [| a l IH]; intros reg Hl; [done |]. cbn.
  unfold intrusions in IH. rewrite IH by (intros b Hb; apply Hl; by right).
  apply intrude_other, Hl. by left.
Qed.

Lemma poll_left_alone (user_id blockchain address amount : string)
    (timeInterval : Z) (memo : option string) (checkTime : Z) (w : world)
    (v : string) (fuel : nat) (s : loop_state) (fin : final) :
  left_alone v w → user_id ∈ dom (stop_events s) →
  poll user_id blockchain address amount timeInterval memo checkTime w fuel s =
    Some fin →
  registry_of fin !! v = stop_events s !! v.
Proof.
  intros Hv. revert s. induction fuel as [| fuel IH]; intros s Hdom Hrun; [done |].
  cbn [poll] in Hrun.
  assert ((signal_for user_id (stop_events s)).2 = stop_events s) as Hsame.
  { apply elem_of_dom in Hdom as [flag Hflag].
    by rewrite (signal_for_present _ _ _ Hflag). }
  assert (∀ reg, intrusions (while_fetching (w (cycle_no s))) reg !! v = reg !! v)
    as Hfetch.
  { intros reg. apply intrusions_other. intros a Ha.
    apply (Hv (cycle_no s)), elem_of_app. by left. }
  assert (∀ reg, intrusions (while_sleeping (w (cycle_no s))) reg !! v = reg !! v)
    as Hsleep.
  { intros reg. apply intrusions_other. intros a Ha.
    apply (Hv (cycle_no s)), elem_of_app. by right. }
  destruct (body_cases user_id blockchain address amount timeInterval memo
              checkTime w s)
    as [[_ E] | [(_ & _ & E) | [(_ & _ & _ & E) |
        [(_ & _ & _ & _ & E) | (_ & _ & _ & _ & E)]]]];
    rewrite E in Hrun.
  - by injection Hrun as <-.
  - by injection Hrun as <-.
  - injection Hrun as <-. cbn. by rewrite Hsame.
  - injection Hrun as <-. cbn. by rewrite Hfetch, Hsame.
  - apply IH in Hrun.
    + rewrite Hrun. cbn. by rewrite Hsleep, Hfetch, Hsame.
    + cbn. rewrite Hsame. by do 2 apply intrusions_dom.
Qed.

(** X16.  A session writes the registry once, when it clears its own user's
    signal at the start.  For every user whose entry no other coroutine
    writes while the session runs, the entry at the end of the call is the
    entry after that first step: unchanged (or still absent) for another
    user, unset for the session's own user, whatever the outcome. *)
Theorem session_writes_only_its_own_signal :
  ∀ (user_id blockchain address amount : string) (timeInterval : Z)
    (memo : option string) (checkTime : Z) (w : world) (fuel : nat)
    (reg : registry) (fin : final) (v : string),
    left_alone v w →
    monitorTransactions user_id blockchain address amount timeInterval memo
      checkTime w fuel reg = Some fin →
    registry_of fin !! v = (if decide (v = user_id) then Some false else reg !! v).
Proof.
  intros user_id blockchain address amount timeInterval memo checkTime w fuel
    reg fin v Hv Hrun.
  apply (poll_left_alone _ _ _ _ _ _ _ _ v) in Hrun; [| done |].
  - rewrite Hrun. cbn. rewrite clear_signal_insert.
    case_decide as Hvu; [subst; by rewrite lookup_insert_eq |].
    by rewrite lookup_insert_ne.
  - cbn. rewrite clear_signal_insert, dom_insert_L.
    apply elem_of_union_l, elem_of_singleton. done.
Qed.

Lemma session_writes_only_its_own_signal_witness :
  left_alone "bob" Sample.stop_in_first_sleep
  ∧ monitorTransactions "user123" "ton" "wallet_address" "10" 3600 None 5
      Sample.stop_in_first_sleep 3 {["bob" := true]} =
    Some (mk_final (Returned false) {["user123" := true; "bob" := true]}
            [Fetch "wallet_address"; Sleep 5])
  ∧ ({["user123" := true; "bob" := true]} : registry) !! "bob" = Some true.
Proof.
  assert (left_alone "bob" Sample.stop_in_first_sleep) as Halone.
  { intros k a Ha. destruct k as [| k]; cbn in Ha.
    - apply list_elem_of_singleton in Ha as ->. done.
    - by apply not_elem_of_nil in Ha. }
  assert (monitorTransactions "user123" "ton" "wallet_address" "10" 3600 None 5
            Sample.stop_in_first_sleep 3 {["bob" := true]} =
          Some (mk_final (Returned false) {["user123" := true; "bob" := true]}
                  [Fetch "wallet_address"; Sleep 5])) as Hrun
    by (vm_compute; reflexivity).
  split; [exact Halone |]. split; [exact Hrun |].
  exact (session_writes_only_its_own_signal _ _ _ _ _ _ _ _ _ _ _ "bob"
           Halone Hrun).
Defined.

(** ** Criteria no page can meet *)

(** What a session's criteria must look like for an entry of a page to meet
    them. *)
Lemma matches_needs_normal_form (c : cycle) (trx : Trx.t) (amount : string)
    (memo : option string) :
  trx ∈ page c → matches trx amount memo = true →
  memo ≠ Some ""
  ∧ amount ≠ ""
  ∧ rstrip "." amount = amount
  ∧ (has_point amount = true → rstrip "0" amount = amount).
Proof.
  intros Hin Hm. apply matches_spec in Hm as [<- Hmemo].
  destruct (page_entries _ _ Hin) as (addresses & raw_trx & m & Hread & Hbuild).
  apply read_memo_truthy in Hread.
  apply build_entry_fields in Hbuild as (Hm & raw & Hraw).
  destruct (convert_amount_canonical_form _ _ _ Hraw) as (? & _ & ? & ?).
  split; [| done]. intros ->.
  destruct Hmemo as [? | (m' & [= <-] & Hempty)]; [done |].
  rewrite Hempty in Hm. subst m. by destruct Hread.
Qed.

Lemma no_page_matches (amount : string) (memo : option string) (w : world) :
  memo = Some "" ∨ amount = "" ∨ rstrip "." amount ≠ amount
  ∨ (has_point amount = true ∧ rstrip "0" amount ≠ amount) →
  ∀ k, cycle_matches amount memo (w k) = false.
Proof.
  intros Hbad k. apply not_true_is_false. intros Hm.
  apply cycle_matches_spec in Hm as (trx & Hin & Hamount & Hmemo).
  destruct (matches_needs_normal_form (w k) trx amount memo Hin)
    as (H1 & H2 & H3 & H4); [by apply matches_spec |].
  destruct Hbad as [? | [? | [? | [Hp ?]]]]; try done. by apply H4 in Hp.
Qed.

(** X17.  A call whose expected memo is the empty string never returns
    [True]: a payment without comment is reported with memo [None], which is
    not equal to [''], and a reported memo is never empty. *)
Theorem empty_expected_memo_is_never_found :
  ∀ (user_id blockchain address amount : string) (timeInterval checkTime : Z)
    (w : world) (fuel : nat) (reg : registry) (fin : final),
    monitorTransactions user_id blockchain address amount timeInterval
      (Some "") checkTime w fuel reg = Some fin →
    result_of fin ≠ Returned true.
Proof.
  intros user_id blockchain address amount timeInterval checkTime w fuel reg
    fin Hrun.
  eapply poll_no_match; [| exact Hrun]. apply no_page_matches. by left.
Qed.

Lemma empty_expected_memo_is_never_found_witness :
  monitorTransactions "user123" "ton" "wallet_address" "10" 10 (Some "") 5
    Sample.third_poll 5 ∅ =
  Some (mk_final (Returned false) {["user123" := false]}
          (cycles 3 "wallet_address" 5))
  ∧ Returned false ≠ Returned true.
Proof.
  assert (monitorTransactions "user123" "ton" "wallet_address" "10" 10 (Some "") 5
            Sample.third_poll 5 ∅ =
          Some (mk_final (Returned false) {["user123" := false]}
                  (cycles 3 "wallet_address" 5))) as Hrun
    by (vm_compute; reflexivity).
  split; [exact Hrun |].
  exact (empty_expected_memo_is_never_found _ _ _ _ _ _ _ _ _ _ Hrun).
Defined.

(** X18.  The expected amount is compared as a string with what
    [convert_amount] printed.  A call whose expected amount is not in that
    canonical form (empty, ending with a point, or with a point and a
    trailing zero, such as ['10.0'] or ['0.50']) never returns [True],
    whatever is paid. *)
Theorem unnormalised_expected_amount_is_never_found :
  ∀ (user_id blockchain address amount : string) (timeInterval : Z)
    (memo : option string) (checkTime : Z) (w : world) (fuel : nat)
    (reg : registry) (fin : final),
    amount = "" ∨ rstrip "." amount ≠ amount
    ∨ (has_point amount = true ∧ rstrip "0" amount ≠ amount) →
    monitorTransactions user_id blockchain address amount timeInterval memo
      checkTime w fuel reg = Some fin →
    result_of fin ≠ Returned true.
Proof.
  intros user_id blockchain address amount timeInterval memo checkTime w fuel
    reg fin Hbad Hrun.
  eapply poll_no_match; [| exact Hrun]. apply no_page_matches. by right.
Qed.

Lemma unnormalised_expected_amount_is_never_found_witness :
  (has_point "10.0" = true ∧ rstrip "0" "10.0" ≠ "10.0")
  ∧ monitorTransactions "user123" "ton" "wallet_address" "10.0" 10 None 5
      Sample.third_poll 5 ∅ =
    Some (mk_final (Returned false) {["user123" := false]}
            (cycles 3 "wallet_address" 5))
  ∧ Returned false ≠ Returned true.
Proof.
  assert (has_point "10.0" = true ∧ rstrip "0" "10.0" ≠ "10.0") as Hbad
    by (split; [reflexivity | vm_compute; discriminate]).
  assert (monitorTransactions "user123" "ton" "wallet_address" "10.0" 10 None 5
            Sample.third_poll 5 ∅ =
          Some (mk_final (Returned false) {["user123" := false]}
                  (cycles 3 "wallet_address" 5))) as Hrun
    by (vm_compute; reflexivity).
  split; [exact Hbad |]. split; [exact Hrun |].
  exact (unnormalised_expected_amount_is_never_found _ _ _ _ _ _ _ _ _ _ _
           (or_intror (or_intror Hbad)) Hrun).
Defined.
